(** * The conduit traffic monitor (cli/scripts/monitor/main.go)

    A shallow embedding of the supervisor that launches the [conduit]
    worker, scrapes its byte counters, keeps the persisted usage ledger
    and restarts the worker in throttled mode once the quota threshold
    is crossed, together with the properties of its accounting, its
    argument rewriting and its process life cycle. *)

From Stdlib Require Import ZArith List String Ascii Bool Lia Floats DecimalString.
Import ListNotations.

Local Open Scope string_scope.
Local Open Scope list_scope.
Local Open Scope Z_scope.

(** ** Machine integers: Go's [int64] with its wrap-around *)

Module Int64.

Definition min_int : Z := - 2 ^ 63.
Definition max_int : Z := 2 ^ 63 - 1.

Definition in_range (z : Z) : Prop := min_int <= z <= max_int.

(** Two's complement reduction of a mathematical integer. *)
Definition wrap (z : Z) : Z := (z + 2 ^ 63) mod 2 ^ 64 - 2 ^ 63.

Definition add (a b : Z) : Z := wrap (a + b).
Definition sub (a b : Z) : Z := wrap (a - b).
Definition mul (a b : Z) : Z := wrap (a * b).

End Int64.

(** ** Go strings: byte sequences, with the [strings] functions the
    monitor calls *)

Module Strings.

Definition newline : ascii := "010"%char.
Definition space : ascii := " "%char.

(** [strings.HasPrefix(s, p)] *)
Definition HasPrefix (s p : string) : bool := String.prefix p s.

(** [strings.Split(s, "\n")]: the pieces between line feeds; the empty
    string gives one empty piece. *)
Fixpoint SplitLines (s : string) : list string :=
  match s with
  | EmptyString => [EmptyString]
  | String c r =>
      if Ascii.eqb c newline then EmptyString :: SplitLines r
      else match SplitLines r with
           | l :: ls => String c l :: ls
           | [] => [String c EmptyString]
           end
  end.

Definition byte_in (c : ascii) (l : list N) : bool :=
  existsb (N.eqb (N_of_ascii c)) l.

(** The six ASCII characters of [unicode.IsSpace]. *)
Definition asciiSpace (c : ascii) : bool := byte_in c [9; 10; 11; 12; 13; 32]%N.

(** Width in bytes of the white-space rune encoded at the head of [s],
    and 0 when the head is no white space.  The runes are those of
    [unicode.IsSpace]: the ASCII ones, U+0085, U+00A0, U+1680,
    U+2000..U+200A, U+2028, U+2029, U+202F, U+205F and U+3000.  A
    continuation byte never starts one of these encodings, so the
    rune decoder of [strings.Fields] stops at each of them. *)
Definition spaceWidth (s : string) : nat :=
  match s with
  | EmptyString => 0%nat
  | String c r =>
      if asciiSpace c then 1%nat
      else if byte_in c [0xC2]%N then
        match r with
        | String d _ => if byte_in d [0x85; 0xA0]%N then 2%nat else 0%nat
        | _ => 0%nat
        end
      else if byte_in c [0xE1]%N then
        match r with
        | String d (String e _) =>
            if byte_in d [0x9A]%N && byte_in e [0x80]%N then 3%nat else 0%nat
        | _ => 0%nat
        end
      else if byte_in c [0xE2]%N then
        match r with
        | String d (String e _) =>
            if byte_in d [0x80]%N
               && ((N_of_ascii e <=? 0x8A)%N && (0x80 <=? N_of_ascii e)%N
                   || byte_in e [0xA8; 0xA9; 0xAF]%N)
            then 3%nat
            else if byte_in d [0x81]%N && byte_in e [0x9F]%N then 3%nat
            else 0%nat
        | _ => 0%nat
        end
      else if byte_in c [0xE3]%N then
        match r with
        | String d (String e _) =>
            if byte_in d [0x80]%N && byte_in e [0x80]%N then 3%nat else 0%nat
        | _ => 0%nat
        end
      else 0%nat
  end.

Definition snoc (w : string) (c : ascii) : string :=
  String.append w (String c EmptyString).

Definition flush (cur : option string) : list string :=
  match cur with Some w => [w] | None => [] end.

(** The scanning loop of [strings.Fields]: [skip] counts the bytes
    still to drop of the white-space rune being crossed, [cur] is the
    field being collected. *)
Fixpoint fieldsFrom (s : string) (skip : nat) (cur : option string) : list string :=
  match s with
  | EmptyString => flush cur
  | String c r =>
      match skip with
      | S k => fieldsFrom r k cur
      | O =>
          match spaceWidth s with
          | O => fieldsFrom r 0 (Some (snoc (match cur with Some w => w | None => "" end) c))
          | S k => flush cur ++ fieldsFrom r k None
          end
      end
  end.

(** [strings.Fields(s)] *)
Definition Fields (s : string) : list string := fieldsFrom s 0 None.

End Strings.

(** ** Go floating point: [float64] as binary64, and the conversions
    the monitor applies to it *)

Module Float64.

(** Integer part of a finite float, rounded toward zero. *)
Definition trunc (f : float) : option Z :=
  match Prim2SF f with
  | S754_zero _ => Some 0
  | S754_finite s m e =>
      let mag := if 0 <=? e then Z.pos m * 2 ^ e else Z.pos m / 2 ^ (- e) in
      Some (if s then - mag else mag)
  | S754_infinity _ | S754_nan => None
  end.

(** The conversion [int64(f)].  Go leaves the result open when the
    value does not fit (or is not a number); the value taken here for
    that case is [math.MinInt64], the "integer indefinite" that the
    amd64 build of the monitor produces. *)
Definition to_int64 (f : float) : Z :=
  match trunc f with
  | Some z => if (Int64.min_int <=? z) && (z <=? Int64.max_int) then z else Int64.min_int
  | None => Int64.min_int
  end.

(** The conversion [float64(n)] of a 64-bit integer, rounding to
    nearest even. *)
Definition of_int64 (n : Z) : float :=
  if n =? Int64.min_int then (- (PrimFloat.of_uint63 (Uint63.of_Z (2 ^ 62)) * 2))%float
  else if n <? 0 then (- PrimFloat.of_uint63 (Uint63.of_Z (- n)))%float
  else PrimFloat.of_uint63 (Uint63.of_Z n).

(** Nearest integer to [num / den] for [0 <= num] and [0 < den], ties to
    the even neighbour. *)
Definition roundHalfEven (num den : Z) : Z :=
  let q := num / den in
  let r := num mod den in
  if 2 * r <? den then q
  else if den <? 2 * r then q + 1
  else if Z.even q then q else q + 1.

End Float64.

(** ** The [fmt] verbs the monitor uses to build launch arguments *)

Module Fmt.

(** [fmt.Sprintf("%d", n)] *)
Definition Sprintf_d (n : Z) : string := NilZero.string_of_int (Z.to_int n).

Definition signOf (s : bool) : string := if s then "-" else "".

(** [fmt.Sprintf("%.0f", f)]: the exact value rounded to an integer, ties
    to even, in decimal. *)
Definition Sprintf_0f (f : float) : string :=
  match Prim2SF f with
  | S754_nan => "NaN"
  | S754_infinity s => if s then "-Inf" else "+Inf"
  | S754_zero s => String.append (signOf s) "0"
  | S754_finite s m e =>
      let n := if 0 <=? e then Z.pos m * 2 ^ e
               else Float64.roundHalfEven (Z.pos m) (2 ^ (- e)) in
      String.append (signOf s) (Sprintf_d n)
  end.

End Fmt.

(** ** The monitor *)

Module Monitor.

Import Strings.

(** *** Constants *)

Definition MinTrafficLimitGB : Z := 100.
Definition MinTrafficPeriodDays : Z := 7.
Definition MinThresholdPercent : Z := 60.
Definition MaxThresholdPercent : Z := 90.
Definition DefaultThreshold : Z := 80.

(** [time.Duration] counts nanoseconds in an [int64]; a [time.Time] is
    taken as an instant on one nanosecond axis. *)
Definition Duration := Z.
Definition Time := Z.
Definition Second : Duration := 1000000000.
Definition Hour : Duration := 3600 * Second.

(** *** Data *)

Record TrafficState := mkTrafficState {
  PeriodStartTime : Time;
  BytesUsed : Z;
  IsThrottled : bool
}.

Record Config := mkConfig {
  TrafficLimitGB : float;
  TrafficPeriodDays : Z;
  BandwidthThresholdPercent : Z;
  MinConnections : Z;
  MinBandwidthMbps : float;
  DataDir : string;
  MetricsAddr : string;
  ConduitArgs : list string
}.

(** [validateConfig]: [None] is Go's [nil] error. *)
Definition validateConfig (cfg : Config) : option string :=
  if TrafficPeriodDays cfg <? MinTrafficPeriodDays then
    Some "traffic-period must be at least 7 days"
  else if PrimFloat.ltb (TrafficLimitGB cfg) (Float64.of_int64 MinTrafficLimitGB) then
    Some "traffic-limit must be at least 100 GB"
  else if (BandwidthThresholdPercent cfg <? MinThresholdPercent)
          || (MaxThresholdPercent <? BandwidthThresholdPercent cfg) then
    Some "bandwidth-threshold must be between 60-90%"
  else if MinConnections cfg <=? 0 then
    Some "min-connections must be positive"
  else if PrimFloat.leb (MinBandwidthMbps cfg) 0 then
    Some "min-bandwidth must be positive"
  else None.

(** A buffered channel of [struct{}] values, with the two non-blocking
    operations the monitor performs on it. *)
Record Chan := mkChan {
  chanCap : nat;
  chanBuf : list unit
}.

Definition makeChan (n : nat) : Chan := mkChan n [].

(** [select { case c <- struct{}{}: default: }] *)
Definition trySend (c : Chan) : Chan :=
  if (List.length (chanBuf c) <? chanCap c)%nat
  then mkChan (chanCap c) (chanBuf c ++ [tt])
  else c.

(** [case <-c] of a [select]: ready only when a value is buffered. *)
Definition recv (c : Chan) : option Chan :=
  match chanBuf c with
  | [] => None
  | _ :: rest => Some (mkChan (chanCap c) rest)
  end.

(** [exec.Cmd]: the command line and whether [Start] gave it a process. *)
Record Cmd := mkCmd {
  cmdArgs : list string;
  cmdProcess : bool
}.

(** The [Supervisor] struct.  [state] is a pointer, nil until [Run] has
    loaded or created the ledger; [stateFile], [metricsURL], [mu] and
    [stopChan] carry no data that the accounting reads. *)
Record Supervisor := mkSupervisor {
  cfg : Config;
  state : option TrafficState;
  child : option Cmd;
  restartChan : Chan;
  lastScrapeTotal : Z
}.

Definition NewSupervisor (c : Config) : Supervisor :=
  {| cfg := c;
     state := None;
     child := None;
     restartChan := makeChan 1;
     lastScrapeTotal := 0 |}.

(** *** What the monitor does to its surroundings *)

Inductive Signal := SIGTERM | SIGKILL.

Inductive Effect :=
| Log (msg : string)
| SaveState (st : option TrafficState)   (* os.WriteFile of the marshalled ledger *)
| StartChild (args : list string)        (* exec.Command("conduit", args...).Start() *)
| SpawnWaiter                            (* go func() { waitErr <- s.child.Wait() }() *)
| Sleep (d : Duration)                   (* time.Sleep(d) *)
| SendSignal (sig : Signal)              (* Process.Signal / Process.Kill *)
| TimerFired (d : Duration)              (* <-time.After(d) *)
| DrainExit                              (* select { case <-waitErr: default: } *)
| ExitObserved (t : Duration).           (* <-waitErr completes, [t] after the call *)

(** The supervisor together with the trace of its effects, oldest first. *)
Record World := mkWorld {
  sup : Supervisor;
  out : list Effect
}.

(** Outcome of a piece of monitor code: it completes, or it dereferences
    the nil [state] pointer and panics. *)
Inductive Res (A : Type) :=
| Done (a : A) (w : World)
| Panic.
Arguments Done {A} a w.
Arguments Panic {A}.

Definition M (A : Type) : Type := World -> Res A.

Definition ret {A} (a : A) : M A := fun w => Done a w.

Definition bind {A B} (m : M A) (k : A -> M B) : M B :=
  fun w => match m w with
           | Done a w' => k a w'
           | Panic => Panic
           end.

Notation "x <- m ;; k" := (bind m (fun x => k))
  (at level 61, m at next level, right associativity).
Notation "m ;;; k" := (bind m (fun _ => k))
  (at level 61, right associativity).

Definition getSup : M Supervisor := fun w => Done (sup w) w.

Definition putSup (s : Supervisor) : M unit := fun w => Done tt (mkWorld s (out w)).

Definition emit (e : Effect) : M unit := fun w => Done tt (mkWorld (sup w) (out w ++ [e])).

(** Reading through the [state] pointer. *)
Definition getState : M TrafficState :=
  fun w => match state (sup w) with
           | Some st => Done st w
           | None => Panic
           end.

Definition setState (st : TrafficState) : M unit :=
  s <- getSup ;;
  putSup {| cfg := cfg s; state := Some st; child := child s;
            restartChan := restartChan s; lastScrapeTotal := lastScrapeTotal s |}.

Definition setLastScrapeTotal (n : Z) : M unit :=
  s <- getSup ;;
  putSup {| cfg := cfg s; state := state s; child := child s;
            restartChan := restartChan s; lastScrapeTotal := n |}.

Definition setChild (c : option Cmd) : M unit :=
  s <- getSup ;;
  putSup {| cfg := cfg s; state := state s; child := c;
            restartChan := restartChan s; lastScrapeTotal := lastScrapeTotal s |}.

Definition setRestartChan (c : Chan) : M unit :=
  s <- getSup ;;
  putSup {| cfg := cfg s; state := state s; child := child s;
            restartChan := c; lastScrapeTotal := lastScrapeTotal s |}.

(** [saveState]: the marshalled ledger is written to the state file; a
    failed write only logs a warning and leaves the supervisor as it is. *)
Definition saveState : M unit :=
  s <- getSup ;;
  emit (SaveState (state s)).

(** [triggerRestart] *)
Definition triggerRestart : M unit :=
  s <- getSup ;;
  setRestartChan (trySend (restartChan s)).

(** *** Launch arguments *)

Section WithParseFloat.

(** [strconv.ParseFloat(s, 64)] of the Go library: [None] is a syntax or
    range error. *)
Variable ParseFloat : string -> option float.

(** [looksLikeValue] *)
Definition looksLikeValue (s : string) : bool :=
  if negb (HasPrefix s "-") then true
  else match ParseFloat s with
       | Some _ => true
       | None => false
       end.

(** One turn of the loop of [filterArgs] at index [i]; the loop state
    is [filtered] and [skipNext]. *)
Definition filterStep (args : list string) (longFlag shortFlag : string)
    (st : list string * bool) (ia : nat * string) : list string * bool :=
  let '(filtered, skipNext) := st in
  let '(i, arg) := ia in
  if skipNext then (filtered, false)
  else if String.eqb arg longFlag || String.eqb arg shortFlag then
    match nth_error args (i + 1) with
    | Some next => (filtered, looksLikeValue next)
    | None => (filtered, false)
    end
  else if HasPrefix arg (String.append longFlag "=")
          || HasPrefix arg (String.append shortFlag "=") then (filtered, false)
  else (filtered ++ [arg], false).

(** [filterArgs] *)
Definition filterArgs (args : list string) (longFlag shortFlag : string) : list string :=
  fst (fold_left (filterStep args longFlag shortFlag)
                 (combine (seq 0 (List.length args)) args)
                 ([], false)).

(** The argument list [Run] hands to [exec.Command]. *)
Definition launchArgs (c : Config) (isThrottled : bool) : list string :=
  let args := ConduitArgs c in
  if isThrottled then
    let args := filterArgs args "--max-clients" "-m" in
    let args := filterArgs args "--bandwidth" "-b" in
    let args := args ++ ["--max-clients"; Fmt.Sprintf_d (MinConnections c)] in
    args ++ ["--bandwidth"; Fmt.Sprintf_0f (MinBandwidthMbps c)]
  else args.

(** *** Scraping *)

(** What [httpClient.Get] and [io.ReadAll] deliver: a transport failure,
    or a status code with the body ([None] when reading it failed). *)
Inductive HttpResult :=
| HttpFail
| HttpResponse (status : Z) (body : option string).

(** The assignment guarded by [len(parts) >= 2] and a successful
    [ParseFloat]: the new value of the counter whose old value is [old]. *)
Definition parseCounter (line : string) (old : Z) : Z :=
  match Fields line with
  | _ :: v :: _ =>
      match ParseFloat v with
      | Some val => Float64.to_int64 val
      | None => old
      end
  | _ => old
  end.

(** The body of the loop over the lines, on the pair [(up, down)]. *)
Definition scanLine (acc : Z * Z) (line : string) : Z * Z :=
  let '(up, down) := acc in
  if HasPrefix line "#" then (up, down)
  else
    let up := if HasPrefix line "conduit_bytes_uploaded "
              then parseCounter line up else up in
    let down := if HasPrefix line "conduit_bytes_downloaded "
                then parseCounter line down else down in
    (up, down).

Definition scanBody (body : string) : Z * Z :=
  fold_left scanLine (SplitLines body) (0, 0).

(** [scrapeBytesUsed]: [None] is a non-nil error. *)
Definition scrapeBytesUsed (resp : HttpResult) : option Z :=
  match resp with
  | HttpFail => None
  | HttpResponse status body =>
      if negb (status =? 200) then None
      else match body with
           | None => None
           | Some b => let '(up, down) := scanBody b in Some (Int64.add up down)
           end
  end.

(** *** Accounting *)

Definition limitBytes (c : Config) : Z :=
  Float64.to_int64 (TrafficLimitGB c * 1024 * 1024 * 1024)%float.

Definition thresholdBytes (c : Config) : Z :=
  Float64.to_int64
    (Float64.of_int64 (limitBytes c)
     * Float64.of_int64 (BandwidthThresholdPercent c) / 100)%float.

(** [updateUsage] *)
Definition updateUsage (currentSessionTotal : Z) : M unit :=
  s <- getSup ;;
  let delta := Int64.sub currentSessionTotal (lastScrapeTotal s) in
  let delta := if delta <? 0 then currentSessionTotal else delta in
  setLastScrapeTotal currentSessionTotal ;;;
  (if 0 <? delta then
     st <- getState ;;
     setState (mkTrafficState (PeriodStartTime st)
                              (Int64.add (BytesUsed st) delta)
                              (IsThrottled st)) ;;;
     saveState
   else ret tt) ;;;
  st <- getState ;;
  needsRestart <-
    (if negb (IsThrottled st) && (thresholdBytes (cfg s) <=? BytesUsed st) then
       emit (Log (String.append "[THROTTLE] Threshold reached ("
                    (String.append (Fmt.Sprintf_d (BandwidthThresholdPercent (cfg s)))
                                   "%). Throttling..."))) ;;;
       setState (mkTrafficState (PeriodStartTime st) (BytesUsed st) true) ;;;
       saveState ;;;
       ret true
     else ret false) ;;
  if needsRestart then triggerRestart else ret tt.

Definition periodDuration (c : Config) : Duration :=
  Int64.mul (Int64.mul (TrafficPeriodDays c) 24) Hour.

(** [checkTraffic], at the instant [now] read from the clock and with
    [resp] the answer the metrics endpoint would give. *)
Definition checkTraffic (now : Time) (resp : HttpResult) : M unit :=
  s <- getSup ;;
  st <- getState ;;
  let periodEnd := PeriodStartTime st + periodDuration (cfg s) in
  if periodEnd <? now then
    emit (Log "[RESET] Traffic period ended. Resetting stats.") ;;;
    setState (mkTrafficState now 0 false) ;;;
    setLastScrapeTotal 0 ;;;
    saveState ;;;
    (if IsThrottled st then triggerRestart else ret tt)
  else
    match scrapeBytesUsed resp with
    | None => ret tt
    | Some bytesUsed => updateUsage bytesUsed
    end.

(** *** Stopping the child *)

(** How the child reacts to signals: [termExit] is the delay after
    SIGTERM at which the exit notification arrives when no kill is sent
    ([None]: it never does), [killLatency] the delay from SIGKILL to the
    notification, and [timerWinsTie] the case [select] runs when both are
    ready at once. *)
Record ChildEnv := mkChildEnv {
  termExit : option Duration;
  killLatency : Duration;
  timerWinsTie : bool
}.

Definition gracePeriod : Duration := 5 * Second.

Inductive Race :=
| ExitFirst (t : Duration)
| TimerFirst.

(** The [select] between [<-waitErr] and [<-time.After(5 * time.Second)]. *)
Definition race (env : ChildEnv) : Race :=
  match termExit env with
  | Some t =>
      if (t <? gracePeriod) || ((t =? gracePeriod) && negb (timerWinsTie env))
      then ExitFirst t else TimerFirst
  | None => TimerFirst
  end.

(** The instant the process is gone when SIGKILL is sent at [killedAt]. *)
Definition exitAfterKill (env : ChildEnv) (killedAt : Duration) : Duration :=
  let killed := killedAt + Z.max 0 (killLatency env) in
  match termExit env with
  | Some t => Z.min t killed
  | None => killed
  end.

(** [shutdownChild] *)
Definition shutdownChild (env : ChildEnv) : M unit :=
  s <- getSup ;;
  match child s with
  | Some c =>
      if cmdProcess c then
        emit (SendSignal SIGTERM) ;;;
        match race env with
        | ExitFirst t =>
            emit (ExitObserved t) ;;;
            emit (Log "[INFO] Child process stopped gracefully")
        | TimerFirst =>
            emit (TimerFired gracePeriod) ;;;
            emit (Log "[WARN] Child process did not exit gracefully, killing...") ;;;
            emit (SendSignal SIGKILL) ;;;
            emit (ExitObserved (Z.max gracePeriod (exitAfterKill env gracePeriod)))
        end
      else emit DrainExit
  | None => emit DrainExit
  end.

(** *** The main loop of [Run] and the monitor goroutine *)

(** Where the main loop stands: about to begin an iteration, blocked in
    the [select] of a running child, or returned with an error or nil. *)
Inductive Phase :=
| AtLoopTop
| Waiting
| Returned (err : option string).

(** Outcome of [loadState]. *)
Inductive LoadResult :=
| Loaded (st : TrafficState)
| NotExist
| LoadFailed.

(** The beginning of [Run]: load the ledger or start a fresh one. *)
Definition loadOrInit (loaded : LoadResult) (now : Time) : M unit :=
  match loaded with
  | Loaded st => setState st
  | NotExist =>
      emit (Log "[INFO] No previous state found, starting fresh traffic period") ;;;
      setState (mkTrafficState now 0 false) ;;;
      saveState
  | LoadFailed =>
      emit (Log "[WARN] Failed to load state, starting fresh") ;;;
      setState (mkTrafficState now 0 false) ;;;
      saveState
  end.

Inductive StopSource := FromStopChan | FromSigChan.

(** One pass from the top of the loop to the blocking [select]:
    [pending] is the case taken by the non-blocking [select] on
    [stopChan] and [sigChan], [startOk] whether [Start] succeeds. *)
Definition loopTop (pending : option StopSource) (startOk : bool) : M Phase :=
  match pending with
  | Some FromStopChan => ret (Returned None)
  | Some FromSigChan =>
      emit (Log "[INFO] Received signal, shutting down...") ;;;
      ret (Returned None)
  | None =>
      st <- getState ;;
      s <- getSup ;;
      emit (Log (if IsThrottled st
                 then "[INFO] Starting Conduit in THROTTLED mode"
                 else "[INFO] Starting Conduit in NORMAL mode")) ;;;
      let args := launchArgs (cfg s) (IsThrottled st) in
      setChild (Some (mkCmd args startOk)) ;;;
      emit (StartChild args) ;;;
      if startOk then emit SpawnWaiter ;;; ret Waiting
      else ret (Returned (Some "failed to start conduit"))
  end.

Definition backoff : Duration := 5 * Second.

(** Case [err := <-waitErr] of the blocking [select]. *)
Definition onChildExit (status : Z) : M Phase :=
  if negb (status =? 0) then
    emit (Log "[ERROR] Conduit exited with error") ;;;
    emit (Sleep backoff) ;;;
    ret AtLoopTop
  else
    emit (Log "[INFO] Conduit exited normally") ;;;
    ret (Returned None).

(** Case [<-s.restartChan], once a value has been received. *)
Definition onRestart (env : ChildEnv) : M Phase :=
  emit (Log "[INFO] Restarting Conduit to apply new settings...") ;;;
  shutdownChild env ;;;
  ret AtLoopTop.

(** Case [<-sigChan]. *)
Definition onSignal (env : ChildEnv) : M Phase :=
  emit (Log "[INFO] Received signal, shutting down...") ;;;
  shutdownChild env ;;;
  ret (Returned None).

(** Case [<-s.stopChan]. *)
Definition onStop (env : ChildEnv) : M Phase :=
  shutdownChild env ;;;
  ret (Returned None).

(** What can happen next in the running monitor. *)
Inductive Event :=
| Tick (now : Time) (resp : HttpResult)
| Iterate (pending : option StopSource) (startOk : bool)
| ChildExited (status : Z)
| RestartRequested (env : ChildEnv)
| SignalReceived (env : ChildEnv)
| StopRequested (env : ChildEnv).

(** One step of the system.  [None]: the event cannot happen in this
    phase (a [select] case that is not ready, a loop that has returned);
    its deferred [cancel] stops the monitor goroutine with [Run]. *)
Definition step (ev : Event) (ph : Phase) (w : World) : option (Res Phase) :=
  match ph, ev with
  | Returned _, _ => None
  | _, Tick now resp => Some ((checkTraffic now resp ;;; ret ph) w)
  | AtLoopTop, Iterate pending startOk => Some (loopTop pending startOk w)
  | Waiting, ChildExited status => Some (onChildExit status w)
  | Waiting, RestartRequested env =>
      match recv (restartChan (sup w)) with
      | Some c => Some ((setRestartChan c ;;; onRestart env) w)
      | None => None
      end
  | Waiting, SignalReceived env => Some (onSignal env w)
  | Waiting, StopRequested env => Some (onStop env w)
  | _, _ => None
  end.

Fixpoint run (evs : list Event) (ph : Phase) (w : World) : option (Res Phase) :=
  match evs with
  | [] => Some (Done ph w)
  | ev :: rest =>
      match step ev ph w with
      | Some (Done ph' w') => run rest ph' w'
      | other => other
      end
  end.

(** [NewSupervisor(cfg).Run()] up to the first iteration of the loop. *)
Definition boot (c : Config) (loaded : LoadResult) (now : Time) : Res unit :=
  loadOrInit loaded now (mkWorld (NewSupervisor c) []).

(** The launches recorded in a trace, oldest first. *)
Fixpoint launches (tr : list Effect) : list (list string) :=
  match tr with
  | [] => []
  | StartChild args :: rest => args :: launches rest
  | _ :: rest => launches rest
  end.

End WithParseFloat.

(** A parser for the plain decimal integers of at most 18 digits, on
    which it agrees with [strconv.ParseFloat]; the examples below run the
    monitor with it. *)
Fixpoint decimalValue (s : string) (acc : Z) : option Z :=
  match s with
  | EmptyString => Some acc
  | String c r =>
      let n := Z.of_N (N_of_ascii c) in
      if (48 <=? n) && (n <=? 57) then decimalValue r (10 * acc + (n - 48))
      else None
  end.

Definition parseDecimal (s : string) : option float :=
  match s with
  | EmptyString => None
  | _ =>
      if (String.length s <=? 18)%nat then
        match decimalValue s 0 with
        | Some n => Some (Float64.of_int64 n)
        | None => None
        end
      else None
  end.

End Monitor.

(** ** Dividing the command line between the monitor and conduit *)

Module Flags.

Import Strings Monitor.

(** [strings.Contains(s, substr)] *)
Fixpoint Contains (s substr : string) : bool :=
  if HasPrefix s substr then true
  else match s with
       | EmptyString => false
       | String _ r => Contains r substr
       end.

(** [isDataDirFlag] *)
Definition isDataDirFlag (arg : string) : bool :=
  String.eqb arg "--data-dir" || String.eqb arg "-d"
  || HasPrefix arg "--data-dir=" || HasPrefix arg "-d=".

(** [isMetricsAddrFlag] *)
Definition isMetricsAddrFlag (arg : string) : bool :=
  String.eqb arg "--metrics-addr" || HasPrefix arg "--metrics-addr=".

(** The test of [parseFlags] for the flags that only the monitor reads. *)
Definition isMonitorOnly (arg : string) : bool :=
  HasPrefix arg "--traffic-limit"
  || HasPrefix arg "--traffic-period"
  || HasPrefix arg "--bandwidth-threshold"
  || HasPrefix arg "--min-connections"
  || HasPrefix arg "--min-bandwidth".

(** What follows [--] goes to conduit, less a leading [start]. *)
Definition afterSeparator (rest : list string) : list string :=
  match rest with
  | first :: rest' => if String.eqb first "start" then rest' else rest
  | [] => rest
  end.

Section WithParseFloat.

Variable ParseFloat : string -> option float.

(** [i+1 < len(args) && looksLikeValue(args[i+1])], with the argument
    when the test holds. *)
Definition valueAt (args : list string) (j : nat) : option string :=
  match nth_error args j with
  | Some next => if looksLikeValue ParseFloat next then Some next else None
  | None => None
  end.

(** The loop of [parseFlags] over [args := os.Args[1:]], from index [i]
    with the two lists built so far; [fuel] bounds the number of turns. *)
Fixpoint parseLoop (fuel : nat) (args : list string) (i : nat)
    (monitorArgs conduitArgs : list string) : list string * list string :=
  match fuel with
  | O => (monitorArgs, conduitArgs)
  | S fuel =>
      match nth_error args i with
      | None => (monitorArgs, conduitArgs)
      | Some arg =>
          if String.eqb arg "--" then
            (monitorArgs, conduitArgs ++ afterSeparator (skipn (i + 1) args))
          else if isMonitorOnly arg then
            match (if Contains arg "=" then None else valueAt args (i + 1)) with
            | Some next =>
                parseLoop fuel args (i + 2) ((monitorArgs ++ [arg]) ++ [next]) conduitArgs
            | None => parseLoop fuel args (i + 1) (monitorArgs ++ [arg]) conduitArgs
            end
          else if isDataDirFlag arg || isMetricsAddrFlag arg then
            if Contains arg "=" then
              parseLoop fuel args (i + 1) (monitorArgs ++ [arg]) (conduitArgs ++ [arg])
            else
              match valueAt args (i + 1) with
              | Some next =>
                  parseLoop fuel args (i + 2)
                    (monitorArgs ++ [arg; next]) (conduitArgs ++ [arg; next])
              | None => parseLoop fuel args (i + 1) monitorArgs (conduitArgs ++ [arg])
              end
          else
            match (if Contains arg "=" then None else valueAt args (i + 1)) with
            | Some next =>
                parseLoop fuel args (i + 2) monitorArgs ((conduitArgs ++ [arg]) ++ [next])
            | None => parseLoop fuel args (i + 1) monitorArgs (conduitArgs ++ [arg])
            end
      end
  end.

(** The pair [(monitorArgs, conduitArgs)] that [parseFlags] builds from
    the command line before it hands [monitorArgs] to the [flag]
    package; every turn advances [i], so [len(args)] turns suffice. *)
Definition splitArgs (args : list string) : list string * list string :=
  parseLoop (List.length args) args 0 [] ["start"].

End WithParseFloat.

End Flags.

(** * Derived notions used in the statements *)

Import Monitor Strings.

Ltac run_monad :=
  unfold bind, ret, getSup, putSup, emit, getState, setState,
    setLastScrapeTotal, setChild, setRestartChan, saveState, triggerRestart;
  simpl.

(** The counter difference as [updateUsage] computes it. *)
Definition usageDelta (last cur : Z) : Z :=
  let delta := Int64.sub cur last in
  if delta <? 0 then cur else delta.

(** The ledger [updateUsage] leaves behind. *)
Definition accounted (st : TrafficState) (delta : Z) : Z :=
  if 0 <? delta then Int64.add (BytesUsed st) delta else BytesUsed st.

Definition crosses (c : Config) (st : TrafficState) (bytes : Z) : bool :=
  negb (IsThrottled st) && (thresholdBytes c <=? bytes).

Definition throttleLog (c : Config) : Effect :=
  Log (String.append "[THROTTLE] Threshold reached ("
         (String.append (Fmt.Sprintf_d (BandwidthThresholdPercent c)) "%). Throttling...")).

(** *** Sample configuration and supervisors for the examples *)

(** A 100 GB quota over 7 days, throttling at 80 %. *)
Definition sampleConfig : Config :=
  {| TrafficLimitGB := 100;
     TrafficPeriodDays := 7;
     BandwidthThresholdPercent := 80;
     MinConnections := 10;
     MinBandwidthMbps := 10;
     DataDir := "./data";
     MetricsAddr := "127.0.0.1:9090";
     ConduitArgs := ["start"; "--max-clients"; "500"; "-b=3"; "-v"] |}.

(** A supervisor with a running child, the ledger [st] and the last
    scraped total [last]. *)
Definition sampleWorld (st : TrafficState) (last : Z) : World :=
  mkWorld
    {| cfg := sampleConfig;
       state := Some st;
       child := Some (mkCmd (ConduitArgs sampleConfig) true);
       restartChan := makeChan 1;
       lastScrapeTotal := last |}
    [].

(** The ledger at 79.9 GB of the 100 GB quota, the worker having
    reported 1000 bytes at the last scrape. *)
Definition nearThreshold : World :=
  sampleWorld (mkTrafficState 0 85791971737 false) 1000.

Definition resetLog : Effect := Log "[RESET] Traffic period ended. Resetting stats.".

(** A metrics body carrying one upload counter. *)
Definition uploadedBody (value : string) : HttpResult :=
  HttpResponse 200 (Some (String.append "conduit_bytes_uploaded " value)).

(** A throttled ledger that began at instant 0 with 1000 bytes used. *)
Definition throttledWorld : World :=
  sampleWorld (mkTrafficState 0 1000 true) 0.

(** The supervisor as [Run] starts it on a first run at instant 0. *)
Definition freshWorld : World :=
  mkWorld
    {| cfg := sampleConfig;
       state := Some (mkTrafficState 0 0 false);
       child := None;
       restartChan := makeChan 1;
       lastScrapeTotal := 0 |}
    [].

Definition lines (l : list string) : string :=
  String.concat (String newline EmptyString) l.

(** A metrics body with a comment, both counters and a counter whose
    name extends the upload counter's. *)
Definition sampleBody : string :=
  lines ["# HELP conduit_bytes_uploaded Total bytes";
         "conduit_bytes_uploaded 1000";
         "conduit_bytes_uploaded_total 500";
         "conduit_bytes_downloaded 234"].

(** A body whose upload counter has a value that is no number. *)
Definition malformedBody : string :=
  lines ["conduit_bytes_uploaded abc";
         "conduit_bytes_downloaded 300"].

(** *** Reading [filterArgs] as a recursion on the argument list *)

Definition isFlag (longFlag shortFlag arg : string) : bool :=
  String.eqb arg longFlag || String.eqb arg shortFlag.

Definition isFlagAssign (longFlag shortFlag arg : string) : bool :=
  HasPrefix arg (String.append longFlag "=") || HasPrefix arg (String.append shortFlag "=").

Fixpoint filterRec (PF : string -> option float) (longFlag shortFlag : string)
    (args : list string) : list string :=
  match args with
  | [] => []
  | arg :: rest =>
      if isFlag longFlag shortFlag arg then
        match rest with
        | next :: rest' =>
            if looksLikeValue PF next then filterRec PF longFlag shortFlag rest'
            else filterRec PF longFlag shortFlag rest
        | [] => []
        end
      else if isFlagAssign longFlag shortFlag arg then filterRec PF longFlag shortFlag rest
      else arg :: filterRec PF longFlag shortFlag rest
  end.

(** [l1] is [l2] with some elements left out, the others in order. *)
Inductive Subseq {A : Type} : list A -> list A -> Prop :=
| Subseq_nil : Subseq [] []
| Subseq_drop (x : A) (l1 l2 : list A) : Subseq l1 l2 -> Subseq l1 (x :: l2)
| Subseq_keep (x : A) (l1 l2 : list A) : Subseq l1 l2 -> Subseq (x :: l1) (x :: l2).

(** No form of the flag: neither its long or short name nor an
    assignment to one of them. *)
Definition flagFree (longFlag shortFlag arg : string) : Prop :=
  isFlag longFlag shortFlag arg = false /\ isFlagAssign longFlag shortFlag arg = false.

(** [arg] is an occurrence of the flag: its long or short name, or an
    assignment [--flag=value] to one of them. *)
Definition mentions (longFlag shortFlag arg : string) : Prop :=
  arg = longFlag \/ arg = shortFlag
  \/ HasPrefix arg (String.append longFlag "=") = true
  \/ HasPrefix arg (String.append shortFlag "=") = true.

Definition isLog (e : Effect) : Prop :=
  match e with
  | Log _ => True
  | _ => False
  end.

Definition gracefulLog : Effect := Log "[INFO] Child process stopped gracefully".

Definition killLog : Effect :=
  Log "[WARN] Child process did not exit gracefully, killing...".

(** The restart channel as [NewSupervisor] makes it, holding at most
    one request. *)
Definition chanOk (c : Chan) : Prop :=
  chanCap c = 1%nat /\ (List.length (chanBuf c) <= 1)%nat.

(** What holds of the supervisor whenever the main loop stands at [ph]:
    the ledger is loaded, the restart channel is as above, and a loop
    blocked in its [select] has a started child. *)
Definition inv (ph : Phase) (w : World) : Prop :=
  state (sup w) <> None
  /\ chanOk (restartChan (sup w))
  /\ (ph = Waiting -> exists c, child (sup w) = Some c /\ cmdProcess c = true).

(** What a monitor tick may do to the supervisor. *)
Definition tickEffect (s s' : Supervisor) : Prop :=
  cfg s' = cfg s
  /\ child s' = child s
  /\ state s' <> None
  /\ (restartChan s' = restartChan s \/ restartChan s' = trySend (restartChan s)).

(** The launches made by a run that has not panicked. *)
Definition launchesOf (r : option (Res Phase)) : list (list string) :=
  match r with
  | Some (Done _ w) => launches (out w)
  | _ => []
  end.

Definition crashLog : Effect := Log "[ERROR] Conduit exited with error".

(** *** Reading the loop of [parseFlags] as a recursion on the
    arguments still to be read *)

Import Flags.

Fixpoint splitRec (PF : string -> option float) (args monitorArgs conduitArgs : list string)
    : list string * list string :=
  match args with
  | [] => (monitorArgs, conduitArgs)
  | arg :: rest =>
      let value := match rest with
                   | next :: _ => if looksLikeValue PF next then Some next else None
                   | [] => None
                   end in
      if String.eqb arg "--" then (monitorArgs, conduitArgs ++ afterSeparator rest)
      else if isMonitorOnly arg then
        match (if Contains arg "=" then None else value), rest with
        | Some next, _ :: rest' => splitRec PF rest' (monitorArgs ++ [arg; next]) conduitArgs
        | _, _ => splitRec PF rest (monitorArgs ++ [arg]) conduitArgs
        end
      else if isDataDirFlag arg || isMetricsAddrFlag arg then
        if Contains arg "=" then splitRec PF rest (monitorArgs ++ [arg]) (conduitArgs ++ [arg])
        else
          match value, rest with
          | Some next, _ :: rest' =>
              splitRec PF rest' (monitorArgs ++ [arg; next]) (conduitArgs ++ [arg; next])
          | _, _ => splitRec PF rest monitorArgs (conduitArgs ++ [arg])
          end
      else
        match (if Contains arg "=" then None else value), rest with
        | Some next, _ :: rest' => splitRec PF rest' monitorArgs (conduitArgs ++ [arg; next])
        | _, _ => splitRec PF rest monitorArgs (conduitArgs ++ [arg])
        end
  end.

(** *** The state file *)

(** The ledger in the state file after the writes of a trace, each
    taken to succeed, starting from the content [disk]. *)
Fixpoint diskAfter (disk : option TrafficState) (tr : list Effect) : option TrafficState :=
  match tr with
  | [] => disk
  | SaveState st :: rest => diskAfter st rest
  | _ :: rest => diskAfter disk rest
  end.

(** The ledger [loadState] finds in the state file. *)
Definition diskOf (loaded : LoadResult) : option TrafficState :=
  match loaded with
  | Loaded st => Some st
  | NotExist | LoadFailed => None
  end.

Definition isSave (e : Effect) : Prop :=
  match e with
  | SaveState _ => True
  | _ => False
  end.

Fixpoint hasNewline (s : string) : bool :=
  match s with
  | EmptyString => false
  | String c r => Ascii.eqb c newline || hasNewline r
  end.

(** The last launch recorded in a trace. *)
Definition lastLaunch (tr : list Effect) : option (list string) :=
  last (map Some (launches tr)) None.

(** Closes the goal that a trace of logs, signals and launches writes
    no ledger. *)
Ltac no_save := repeat constructor; simpl; tauto.

(** [Hnt]: the event of the step [Hstep] is no monitor tick. *)
Ltac main_event Hstep Hnt :=
  match type of Hstep with
  | step _ ?ev _ _ = _ =>
      assert (Hnt : forall now resp, ev <> Tick now resp) by (intros; discriminate)
  end.

(** The flags that [parseFlags] shares between the monitor and conduit. *)
Definition isShared (arg : string) : bool := isDataDirFlag arg || isMetricsAddrFlag arg.

(** One of the two argument lists a configuration can be launched with. *)
Definition launchOf (PF : string -> option float) (c : Config) (args : list string) : Prop :=
  args = launchArgs PF c false \/ args = launchArgs PF c true.

(** * Properties *)

(** ** Integer facts *)

Lemma wrap_id (z : Z) : Int64.in_range z -> Int64.wrap z = z.
Proof.
  unfold Int64.in_range, Int64.min_int, Int64.max_int, Int64.wrap. intros Hz.
  rewrite Z.mod_small; lia.
Qed.

Lemma wrap_range (z : Z) : Int64.in_range (Int64.wrap z).
Proof.
  unfold Int64.in_range, Int64.min_int, Int64.max_int, Int64.wrap.
  pose proof (Z.mod_pos_bound (z + 2 ^ 63) (2 ^ 64) ltac:(lia)). lia.
Qed.

Lemma sub_nonneg_exact (a b : Z) :
  0 <= a <= Int64.max_int -> 0 <= b <= Int64.max_int -> Int64.sub a b = a - b.
Proof.
  intros Ha Hb. apply wrap_id.
  unfold Int64.in_range, Int64.min_int, Int64.max_int in *. lia.
Qed.

Lemma usageDelta_counters (last cur : Z) :
  0 <= cur <= Int64.max_int -> 0 <= last <= Int64.max_int ->
  usageDelta last cur = (if cur - last <? 0 then cur else cur - last)
  /\ 0 <= usageDelta last cur.
Proof.
  intros Hcur Hlast. unfold usageDelta. rewrite sub_nonneg_exact by assumption.
  split; [reflexivity|].
  destruct (cur - last <? 0) eqn:E; [lia|]. apply Z.ltb_ge in E. lia.
Qed.

Lemma accounted_add (st : TrafficState) (delta : Z) :
  Int64.in_range (BytesUsed st) -> 0 <= delta ->
  accounted st delta = Int64.add (BytesUsed st) delta.
Proof.
  intros Hbu Hd. unfold accounted. destruct (0 <? delta) eqn:E; [reflexivity|].
  apply Z.ltb_ge in E. replace delta with 0 by lia.
  unfold Int64.add. rewrite Z.add_0_r. symmetry. apply wrap_id. assumption.
Qed.

(** ** The accounting step in closed form *)

Lemma updateUsage_spec (w : World) (st : TrafficState) (cur : Z) :
  state (sup w) = Some st ->
  let s := sup w in
  let delta := usageDelta (lastScrapeTotal s) cur in
  let bytes := accounted st delta in
  let flip := crosses (cfg s) st bytes in
  let st1 := mkTrafficState (PeriodStartTime st) bytes (IsThrottled st) in
  let st2 := mkTrafficState (PeriodStartTime st) bytes (IsThrottled st || flip) in
  updateUsage cur w =
  Done tt
    (mkWorld
       {| cfg := cfg s; state := Some st2; child := child s;
          restartChan := if flip then trySend (restartChan s) else restartChan s;
          lastScrapeTotal := cur |}
       (out w
        ++ (if 0 <? delta then [SaveState (Some st1)] else [])
        ++ (if flip then [throttleLog (cfg s); SaveState (Some st2)] else []))).
Proof.
  intros Hst. destruct w as [s o]. simpl in *.
  unfold updateUsage, accounted, crosses, usageDelta, throttleLog.
  run_monad. rewrite Hst.
  destruct st as [ps bu th]; simpl.
  destruct (0 <? (if Int64.sub cur (lastScrapeTotal s) <? 0 then cur
                  else Int64.sub cur (lastScrapeTotal s))) eqn:Hd; simpl.
  - destruct (negb th && (thresholdBytes (cfg s) <=? _)) eqn:Hf; simpl.
    + destruct th; simpl in *; [discriminate|].
      rewrite <- ?app_assoc. reflexivity.
    + rewrite orb_false_r. reflexivity.
  - rewrite ?Hst. simpl.
    destruct (negb th && (thresholdBytes (cfg s) <=? bu)) eqn:Hf; simpl.
    + destruct th; simpl in *; [discriminate|].
      rewrite <- ?app_assoc. reflexivity.
    + rewrite orb_false_r, app_nil_r. reflexivity.
Qed.

(** ** Delta accounting *)

(** C3: a usage update with the scraped total [currentTotal] adds a
    delta that is never negative to [bytesUsed] (in 64-bit arithmetic,
    hence exactly when the sum fits) and leaves [lastScrapeTotal] at
    [currentTotal]; for byte counters, which are not negative, that delta
    is [currentTotal - lastScrapeTotal] when the difference is not
    negative and the whole [currentTotal] when it is (the worker
    restarted). *)
Theorem updateUsage_accounts_delta (w : World) (st : TrafficState) (cur : Z) :
  state (sup w) = Some st ->
  Int64.in_range (BytesUsed st) ->
  Int64.in_range cur ->
  Int64.in_range (lastScrapeTotal (sup w)) ->
  let last := lastScrapeTotal (sup w) in
  exists w' st' delta,
    updateUsage cur w = Done tt w' /\
    state (sup w') = Some st' /\
    lastScrapeTotal (sup w') = cur /\
    BytesUsed st' = Int64.add (BytesUsed st) delta /\
    0 <= delta /\
    (0 <= cur -> 0 <= last ->
     delta = if cur - last <? 0 then cur else cur - last) /\
    (BytesUsed st + delta <= Int64.max_int -> BytesUsed st' = BytesUsed st + delta).
Proof.
  intros Hst Hbu Hcur Hlast last.
  pose proof (updateUsage_spec w st cur Hst) as Hspec. cbv zeta in Hspec.
  eexists. eexists. exists (Z.max 0 (usageDelta last cur)).
  split; [exact Hspec|]. simpl.
  split; [reflexivity|]. split; [reflexivity|].
  assert (Hacc : accounted st (usageDelta last cur)
                 = Int64.add (BytesUsed st) (Z.max 0 (usageDelta last cur))).
  { unfold accounted. destruct (0 <? usageDelta last cur) eqn:E.
    - apply Z.ltb_lt in E. rewrite Z.max_r by lia. reflexivity.
    - apply Z.ltb_ge in E. rewrite Z.max_l by lia.
      unfold Int64.add. rewrite Z.add_0_r. symmetry. apply wrap_id. exact Hbu. }
  split; [exact Hacc|]. split; [lia|].
  split.
  - intros Hc Hl.
    destruct (usageDelta_counters last cur) as [Hd Hpos];
      [unfold Int64.in_range in *; lia..|].
    rewrite Z.max_r by exact Hpos. exact Hd.
  - intros Hfit. fold last. rewrite Hacc. unfold Int64.add. apply wrap_id.
    unfold Int64.in_range in *. lia.
Qed.

(** The restart example of C3: the last scrape saw 5,000,000 bytes, the
    restarted worker reports 4,000,000, and the ledger grows by 4,000,000. *)
Lemma updateUsage_accounts_delta_witness :
  exists w' st',
    updateUsage 4000000 (sampleWorld (mkTrafficState 0 1000 false) 5000000) = Done tt w' /\
    state (sup w') = Some st' /\
    lastScrapeTotal (sup w') = 4000000 /\
    BytesUsed st' = 1000 + 4000000.
Proof.
  destruct (updateUsage_accounts_delta
              (sampleWorld (mkTrafficState 0 1000 false) 5000000)
              (mkTrafficState 0 1000 false) 4000000)
    as (w' & st' & delta & Hrun & Hst & Hlast & _ & _ & Hdelta & Hexact).
  - reflexivity.
  - unfold Int64.in_range, Int64.min_int, Int64.max_int. simpl. lia.
  - unfold Int64.in_range, Int64.min_int, Int64.max_int. lia.
  - unfold Int64.in_range, Int64.min_int, Int64.max_int. simpl. lia.
  - exists w', st'. split; [exact Hrun|]. split; [exact Hst|]. split; [exact Hlast|].
    assert (Hd : delta = 4000000).
    { rewrite Hdelta; [reflexivity|lia|simpl; lia]. }
    rewrite Hd in Hexact. apply Hexact. unfold Int64.max_int. simpl. lia.
Defined.

(** ** Crossing the threshold *)

Example sampleConfig_valid : validateConfig sampleConfig = None.
Proof. vm_compute. reflexivity. Qed.

Lemma sample_threshold :
  limitBytes sampleConfig = 100 * 2 ^ 30 /\
  thresholdBytes sampleConfig = 80 * (100 * 2 ^ 30) / 100.
Proof. split; vm_compute; reflexivity. Qed.



(** The same example run through: the flag flips once, one restart
    request is queued, and the following update changes neither. *)
Example threshold_crossing_flips_once :
  exists w1 w2,
    updateUsage (1000 + 214748364) nearThreshold = Done tt w1 /\
    state (sup w1) = Some (mkTrafficState 0 (85791971737 + 214748364) true) /\
    restartChan (sup w1) = mkChan 1 [tt] /\
    updateUsage (1000 + 214748364 + 5000) w1 = Done tt w2 /\
    state (sup w2) = Some (mkTrafficState 0 (85791971737 + 214748364 + 5000) true) /\
    restartChan (sup w2) = mkChan 1 [tt] /\
    out w2 = out w1 ++ [SaveState (state (sup w2))].
Proof.
  do 2 eexists.
  split; [vm_compute; reflexivity|].
  split; [reflexivity|]. split; [reflexivity|].
  split; [vm_compute; reflexivity|].
  split; [reflexivity|]. split; reflexivity.
Qed.

(** ** The monitor tick *)

Lemma checkTraffic_expired (PF : string -> option float) (now : Time)
    (resp : HttpResult) (w : World) (st : TrafficState) :
  state (sup w) = Some st ->
  PeriodStartTime st + periodDuration (cfg (sup w)) < now ->
  checkTraffic PF now resp w =
  Done tt
    (mkWorld
       {| cfg := cfg (sup w);
          state := Some (mkTrafficState now 0 false);
          child := child (sup w);
          restartChan := if IsThrottled st then trySend (restartChan (sup w))
                         else restartChan (sup w);
          lastScrapeTotal := 0 |}
       (out w ++ [resetLog; SaveState (Some (mkTrafficState now 0 false))])).
Proof.
  intros Hst Hlt. destruct w as [s o]. simpl in *.
  unfold checkTraffic, resetLog. run_monad. rewrite Hst.
  apply Z.ltb_lt in Hlt. rewrite Hlt. simpl.
  rewrite <- ?app_assoc. destruct (IsThrottled st); reflexivity.
Qed.

Lemma checkTraffic_running (PF : string -> option float) (now : Time)
    (resp : HttpResult) (w : World) (st : TrafficState) :
  state (sup w) = Some st ->
  now <= PeriodStartTime st + periodDuration (cfg (sup w)) ->
  checkTraffic PF now resp w =
  match scrapeBytesUsed PF resp with
  | None => Done tt w
  | Some total => updateUsage total w
  end.
Proof.
  intros Hst Hle. destruct w as [s o]. simpl in *.
  unfold checkTraffic. run_monad. rewrite Hst.
  apply Z.ltb_ge in Hle. rewrite Hle.
  destruct (scrapeBytesUsed PF resp); reflexivity.
Qed.

Lemma periodDuration_days (c : Config) :
  0 <= TrafficPeriodDays c <= 106751 ->
  periodDuration c = TrafficPeriodDays c * 24 * Hour.
Proof.
  intros Hd. unfold periodDuration, Int64.mul, Hour, Second.
  rewrite (wrap_id (TrafficPeriodDays c * 24)).
  - apply wrap_id. unfold Int64.in_range, Int64.min_int, Int64.max_int. lia.
  - unfold Int64.in_range, Int64.min_int, Int64.max_int. lia.
Qed.

Lemma throttleLog_not_reset (c : Config) : throttleLog c <> resetLog.
Proof. unfold throttleLog, resetLog. simpl. discriminate. Qed.

(** C2 as the code has it: the rollover check of a tick resets the ledger
    ([bytesUsed] 0, [isThrottled] false, [periodStart] the current
    instant) if and only if [now] is strictly after
    [periodStart + periodLength]; at that very instant and before it the
    check changes nothing, and the tick goes on to scrape with the ledger
    as it was. *)
Theorem checkTraffic_resets_iff_after (PF : string -> option float)
    (w : World) (st : TrafficState) (now : Time) (resp : HttpResult) :
  state (sup w) = Some st ->
  0 <= TrafficPeriodDays (cfg (sup w)) <= 106751 ->
  let periodEnd := PeriodStartTime st + TrafficPeriodDays (cfg (sup w)) * 24 * Hour in
  exists w' tr,
    checkTraffic PF now resp w = Done tt w' /\
    out w' = out w ++ tr /\
    (In resetLog tr <-> periodEnd < now) /\
    (periodEnd < now -> state (sup w') = Some (mkTrafficState now 0 false)) /\
    (now <= periodEnd ->
     checkTraffic PF now resp w =
       match scrapeBytesUsed PF resp with
       | None => Done tt w
       | Some total => updateUsage total w
       end).
Proof.
  intros Hst Hdays periodEnd.
  pose proof (periodDuration_days _ Hdays) as Hpd.
  destruct (Z_lt_le_dec periodEnd now) as [Hlt | Hle].
  - unfold periodEnd in Hlt. rewrite <- Hpd in Hlt.
    rewrite (checkTraffic_expired PF now resp w st Hst Hlt).
    do 2 eexists. split; [reflexivity|]. simpl. split; [reflexivity|].
    split; [|split; [reflexivity|]].
    + split; [intros _; unfold periodEnd; lia|intros _; left; reflexivity].
    + unfold periodEnd. lia.
  - pose proof Hle as Hle'. unfold periodEnd in Hle'. rewrite <- Hpd in Hle'.
    rewrite (checkTraffic_running PF now resp w st Hst Hle').
    destruct (scrapeBytesUsed PF resp) as [total|].
    + rewrite (updateUsage_spec w st total Hst). cbv zeta.
      do 2 eexists. split; [reflexivity|]. simpl. split; [reflexivity|].
      split; [|split; [lia|reflexivity]].
      split; [|lia].
      intros Hin. exfalso.
      pose proof (throttleLog_not_reset (cfg (sup w))) as Hne.
      apply in_app_or in Hin. destruct Hin as [Hin | Hin].
      * destruct (0 <? _); simpl in Hin; [|exact Hin].
        destruct Hin as [Hin | []]. discriminate Hin.
      * destruct (crosses _ _ _); simpl in Hin; [|exact Hin].
        destruct Hin as [Hin | [Hin | []]]; [exact (Hne Hin) | discriminate Hin].
    + exists w, []. split; [reflexivity|]. split; [symmetry; apply app_nil_r|].
      split; [|split; [lia|reflexivity]].
      split; [intros []|lia].
Qed.

Lemma checkTraffic_resets_iff_after_witness :
  exists w' tr,
    checkTraffic parseDecimal 604800000000001 HttpFail throttledWorld = Done tt w' /\
    out w' = out throttledWorld ++ tr /\
    (In resetLog tr <-> 0 + 7 * 24 * Hour < 604800000000001) /\
    (0 + 7 * 24 * Hour < 604800000000001 ->
     state (sup w') = Some (mkTrafficState 604800000000001 0 false)) /\
    (604800000000001 <= 0 + 7 * 24 * Hour ->
     checkTraffic parseDecimal 604800000000001 HttpFail throttledWorld =
       match scrapeBytesUsed parseDecimal HttpFail with
       | None => Done tt throttledWorld
       | Some total => updateUsage total throttledWorld
       end).
Proof.
  apply (checkTraffic_resets_iff_after parseDecimal throttledWorld
           (mkTrafficState 0 1000 true) 604800000000001 HttpFail).
  - reflexivity.
  - simpl. lia.
Defined.

(** C2 as stated fails at the boundary: at [now = periodStart +
    periodLength] exactly, the tick leaves the ledger (1000 bytes used,
    throttled) as it is. *)
Lemma checkTraffic_no_reset_at_period_end :
  604800000000000 >= 0 + periodDuration sampleConfig /\
  state (sup throttledWorld) = Some (mkTrafficState 0 1000 true) /\
  checkTraffic parseDecimal 604800000000000 HttpFail throttledWorld
  = Done tt throttledWorld.
Proof.
  split; [vm_compute; discriminate|].
  split; reflexivity.
Qed.

(** ** Rollover while the worker keeps running *)

(** C1 on the code: when the period rolls over in NORMAL mode, no
    restart is requested and the child is left running, yet
    [lastScrapeTotal] is zeroed; the next successful scrape therefore
    adds the worker's whole cumulative total [cur] to the fresh ledger,
    whatever part of it had been accounted before the rollover. *)
Theorem rollover_recounts_cumulative_total (PF : string -> option float)
    (w : World) (st : TrafficState) (now1 now2 : Time) (resp1 resp2 : HttpResult)
    (cur : Z) :
  state (sup w) = Some st ->
  IsThrottled st = false ->
  PeriodStartTime st + periodDuration (cfg (sup w)) < now1 ->
  now2 <= now1 + periodDuration (cfg (sup w)) ->
  scrapeBytesUsed PF resp2 = Some cur ->
  0 < cur <= Int64.max_int ->
  exists w1 w2 st2,
    checkTraffic PF now1 resp1 w = Done tt w1 /\
    restartChan (sup w1) = restartChan (sup w) /\
    child (sup w1) = child (sup w) /\
    checkTraffic PF now2 resp2 w1 = Done tt w2 /\
    state (sup w2) = Some st2 /\
    BytesUsed st2 = cur.
Proof.
  intros Hst Hth Hexp Hin Hscrape Hcur.
  rewrite (checkTraffic_expired PF now1 resp1 w st Hst Hexp). rewrite Hth.
  set (w1 := mkWorld
               {| cfg := cfg (sup w);
                  state := Some (mkTrafficState now1 0 false);
                  child := child (sup w);
                  restartChan := restartChan (sup w);
                  lastScrapeTotal := 0 |}
               (out w ++ [resetLog; SaveState (Some (mkTrafficState now1 0 false))])).
  pose proof (checkTraffic_running PF now2 resp2 w1 (mkTrafficState now1 0 false)
                eq_refl Hin) as Hrun.
  rewrite Hscrape in Hrun.
  rewrite (updateUsage_spec w1 (mkTrafficState now1 0 false) cur eq_refl) in Hrun.
  cbv zeta in Hrun.
  exists w1. eexists. eexists.
  split; [reflexivity|]. split; [reflexivity|]. split; [reflexivity|].
  split; [exact Hrun|]. simpl. split; [reflexivity|]. simpl.
  assert (Hd : usageDelta 0 cur = cur).
  { unfold usageDelta, Int64.sub. rewrite Z.sub_0_r.
    rewrite wrap_id by (unfold Int64.in_range, Int64.min_int, Int64.max_int in *; lia).
    destruct (cur <? 0); reflexivity. }
  rewrite Hd. unfold accounted. simpl.
  replace (0 <? cur) with true by (symmetry; apply Z.ltb_lt; lia).
  unfold Int64.add. simpl.
  apply wrap_id. unfold Int64.in_range, Int64.min_int, Int64.max_int in *. lia.
Qed.

(** The failing run of C1: 1000 bytes are accounted, the period ends,
    and the worker, still running, has moved 100 more bytes: the fresh
    ledger shows 1100. *)
Lemma rollover_recounts_cumulative_total_witness :
  exists w1 w2 st2,
    checkTraffic parseDecimal 604800000000001 (uploadedBody "1000")
      (sampleWorld (mkTrafficState 0 1000 false) 1000) = Done tt w1 /\
    restartChan (sup w1) = makeChan 1 /\
    child (sup w1) = Some (mkCmd (ConduitArgs sampleConfig) true) /\
    checkTraffic parseDecimal 604810000000001 (uploadedBody "1100") w1 = Done tt w2 /\
    state (sup w2) = Some st2 /\
    BytesUsed st2 = 1100.
Proof.
  apply (rollover_recounts_cumulative_total parseDecimal
           (sampleWorld (mkTrafficState 0 1000 false) 1000)
           (mkTrafficState 0 1000 false)
           604800000000001 604810000000001
           (uploadedBody "1000") (uploadedBody "1100") 1100).
  - reflexivity.
  - reflexivity.
  - vm_compute. reflexivity.
  - vm_compute. discriminate.
  - vm_compute. reflexivity.
  - unfold Int64.max_int. lia.
Defined.

(** ** Parsing the metrics body *)

Lemma prefix_split (p s : string) :
  String.prefix p s = true -> exists r, s = String.append p r.
Proof.
  revert s. induction p as [|c p IH]; intros s H.
  - exists s. reflexivity.
  - destruct s as [|d s]; simpl in H; [discriminate|].
    destruct (ascii_dec c d) as [->|]; [|discriminate].
    destruct (IH s H) as [r ->]. exists r. reflexivity.
Qed.

Lemma uploaded_name_token (line : string) :
  HasPrefix line "conduit_bytes_uploaded " = true ->
  hd_error (Fields line) = Some "conduit_bytes_uploaded".
Proof.
  intros H. destruct (prefix_split _ _ H) as [r ->]. reflexivity.
Qed.

Lemma downloaded_name_token (line : string) :
  HasPrefix line "conduit_bytes_downloaded " = true ->
  hd_error (Fields line) = Some "conduit_bytes_downloaded".
Proof.
  intros H. destruct (prefix_split _ _ H) as [r ->]. reflexivity.
Qed.

Lemma scanLine_fst (PF : string -> option float) (acc : Z * Z) (line : string) :
  HasPrefix line "conduit_bytes_uploaded " = false ->
  fst (scanLine PF acc line) = fst acc.
Proof.
  intros H. destruct acc as [up down]. unfold scanLine.
  destruct (HasPrefix line "#"); [reflexivity|]. rewrite H. reflexivity.
Qed.

Lemma scanLine_snd (PF : string -> option float) (acc : Z * Z) (line : string) :
  HasPrefix line "conduit_bytes_downloaded " = false ->
  snd (scanLine PF acc line) = snd acc.
Proof.
  intros H. destruct acc as [up down]. unfold scanLine.
  destruct (HasPrefix line "#"); [reflexivity|]. rewrite H. reflexivity.
Qed.

Lemma fold_scanLine_fst (PF : string -> option float) (lines : list string) (acc : Z * Z) :
  (forall line, In line lines -> fst (scanLine PF acc line) = fst acc
                                 /\ forall a, fst a = fst acc ->
                                               fst (scanLine PF a line) = fst a) ->
  fst (fold_left (scanLine PF) lines acc) = fst acc.
Proof.
  revert acc. induction lines as [|l ls IH]; intros acc H; [reflexivity|].
  simpl. destruct (H l (or_introl eq_refl)) as [H1 _].
  rewrite IH; [exact H1|].
  intros line Hin. destruct (H line (or_intror Hin)) as [_ H2].
  split.
  - rewrite H2 by exact H1. reflexivity.
  - intros a Ha. apply H2. rewrite Ha. exact H1.
Qed.

Lemma fold_scanLine_snd (PF : string -> option float) (lines : list string) (acc : Z * Z) :
  (forall line, In line lines -> snd (scanLine PF acc line) = snd acc
                                 /\ forall a, snd a = snd acc ->
                                               snd (scanLine PF a line) = snd a) ->
  snd (fold_left (scanLine PF) lines acc) = snd acc.
Proof.
  revert acc. induction lines as [|l ls IH]; intros acc H; [reflexivity|].
  simpl. destruct (H l (or_introl eq_refl)) as [H1 _].
  rewrite IH; [exact H1|].
  intros line Hin. destruct (H line (or_intror Hin)) as [_ H2].
  split.
  - rewrite H2 by exact H1. reflexivity.
  - intros a Ha. apply H2. rewrite Ha. exact H1.
Qed.

Lemma hd_not_prefix_uploaded (line : string) :
  hd_error (Fields line) <> Some "conduit_bytes_uploaded" ->
  HasPrefix line "conduit_bytes_uploaded " = false.
Proof.
  intros H. destruct (HasPrefix line "conduit_bytes_uploaded ") eqn:E; [|reflexivity].
  exfalso. apply H. apply uploaded_name_token. exact E.
Qed.

Lemma hd_not_prefix_downloaded (line : string) :
  hd_error (Fields line) <> Some "conduit_bytes_downloaded" ->
  HasPrefix line "conduit_bytes_downloaded " = false.
Proof.
  intros H. destruct (HasPrefix line "conduit_bytes_downloaded ") eqn:E; [|reflexivity].
  exfalso. apply H. apply downloaded_name_token. exact E.
Qed.

(** C7: for every body of a 200 response the scrape succeeds and
    returns the (64-bit) sum of the two counters left by the scan of its
    lines; a line changes the upload (download) counter only when its
    name token, the first field, is exactly [conduit_bytes_uploaded]
    ([conduit_bytes_downloaded]); a line that names
    [conduit_bytes_uploaded_total] changes neither; and a counter that no
    line names stays at 0. *)
Theorem scrape_matches_exact_names (PF : string -> option float) (body : string) :
  (exists up down,
     scanBody PF body = (up, down) /\
     scrapeBytesUsed PF (HttpResponse 200 (Some body)) = Some (Int64.add up down)) /\
  (forall acc line,
     fst (scanLine PF acc line) <> fst acc ->
     hd_error (Fields line) = Some "conduit_bytes_uploaded") /\
  (forall acc line,
     snd (scanLine PF acc line) <> snd acc ->
     hd_error (Fields line) = Some "conduit_bytes_downloaded") /\
  (forall acc rest,
     scanLine PF acc (String.append "conduit_bytes_uploaded_total" rest) = acc) /\
  scrapeBytesUsed PF (HttpResponse 200 (Some "conduit_bytes_uploaded_total 500")) = Some 0 /\
  ((forall line, In line (SplitLines body) ->
                 hd_error (Fields line) <> Some "conduit_bytes_uploaded") ->
   fst (scanBody PF body) = 0) /\
  ((forall line, In line (SplitLines body) ->
                 hd_error (Fields line) <> Some "conduit_bytes_downloaded") ->
   snd (scanBody PF body) = 0).
Proof.
  split.
  { destruct (scanBody PF body) as [up down] eqn:E. exists up, down.
    split; [reflexivity|]. simpl. rewrite E. reflexivity. }
  split.
  { intros acc line H.
    destruct (HasPrefix line "conduit_bytes_uploaded ") eqn:E.
    - apply uploaded_name_token. exact E.
    - exfalso. apply H. apply scanLine_fst. exact E. }
  split.
  { intros acc line H.
    destruct (HasPrefix line "conduit_bytes_downloaded ") eqn:E.
    - apply downloaded_name_token. exact E.
    - exfalso. apply H. apply scanLine_snd. exact E. }
  split.
  { intros [up down] rest. reflexivity. }
  split; [reflexivity|].
  split.
  - intros H. unfold scanBody. apply (fold_scanLine_fst PF _ (0, 0)).
    intros line Hin. pose proof (hd_not_prefix_uploaded line (H line Hin)) as E.
    split; [apply scanLine_fst; exact E|].
    intros a _. apply scanLine_fst. exact E.
  - intros H. unfold scanBody. apply (fold_scanLine_snd PF _ (0, 0)).
    intros line Hin. pose proof (hd_not_prefix_downloaded line (H line Hin)) as E.
    split; [apply scanLine_snd; exact E|].
    intros a _. apply scanLine_snd. exact E.
Qed.

Lemma scrape_matches_exact_names_witness :
  scrapeBytesUsed parseDecimal (HttpResponse 200 (Some sampleBody)) = Some 1234.
Proof.
  destruct (scrape_matches_exact_names parseDecimal sampleBody)
    as [(up & down & Hscan & Hscrape) _].
  rewrite Hscrape. vm_compute in Hscan.
  injection Hscan as <- <-. reflexivity.
Defined.

(** ** Counter values that do not parse *)

Lemma parseCounter_malformed (PF : string -> option float) (line : string) (old : Z) :
  (forall v, nth_error (Fields line) 1 = Some v -> PF v = None) ->
  parseCounter PF line old = old.
Proof.
  intros H. unfold parseCounter.
  destruct (Fields line) as [|name [|v rest]]; try reflexivity.
  rewrite (H v eq_refl). reflexivity.
Qed.

Lemma scanLine_malformed (PF : string -> option float) (acc : Z * Z) (line : string) :
  (forall v, nth_error (Fields line) 1 = Some v -> PF v = None) ->
  scanLine PF acc line = acc.
Proof.
  intros H. destruct acc as [up down]. unfold scanLine.
  rewrite !(parseCounter_malformed PF line) by exact H.
  destruct (HasPrefix line "#"); [reflexivity|].
  destruct (HasPrefix line "conduit_bytes_uploaded ");
    destruct (HasPrefix line "conduit_bytes_downloaded "); reflexivity.
Qed.

(** C10: a line whose value token does not parse leaves both counters
    as they were and raises no error, so a body whose upload (download)
    lines are all of that kind is scraped successfully with that counter
    at its default 0; the total goes into delta accounting, and when it
    lies below [lastScrapeTotal] the tick accounts the whole total as new
    usage. *)
Theorem malformed_counter_scrapes_as_zero (PF : string -> option float) :
  (forall acc line,
     (forall v, nth_error (Fields line) 1 = Some v -> PF v = None) ->
     scanLine PF acc line = acc) /\
  (forall body,
     (forall line, In line (SplitLines body) ->
                   HasPrefix line "conduit_bytes_uploaded " = true ->
                   forall v, nth_error (Fields line) 1 = Some v -> PF v = None) ->
     scrapeBytesUsed PF (HttpResponse 200 (Some body))
     = Some (Int64.add 0 (snd (scanBody PF body)))) /\
  (forall body,
     (forall line, In line (SplitLines body) ->
                   HasPrefix line "conduit_bytes_downloaded " = true ->
                   forall v, nth_error (Fields line) 1 = Some v -> PF v = None) ->
     scrapeBytesUsed PF (HttpResponse 200 (Some body))
     = Some (Int64.add (fst (scanBody PF body)) 0)) /\
  (forall w st now resp total,
     state (sup w) = Some st ->
     Int64.in_range (BytesUsed st) ->
     now <= PeriodStartTime st + periodDuration (cfg (sup w)) ->
     scrapeBytesUsed PF resp = Some total ->
     0 <= total < lastScrapeTotal (sup w) ->
     lastScrapeTotal (sup w) <= Int64.max_int ->
     exists w' st',
       checkTraffic PF now resp w = Done tt w' /\
       state (sup w') = Some st' /\
       BytesUsed st' = Int64.add (BytesUsed st) total /\
       lastScrapeTotal (sup w') = total).
Proof.
  split; [intros acc line H; apply scanLine_malformed; exact H|].
  split.
  { intros body H. simpl.
    assert (Hup : fst (scanBody PF body) = 0).
    { unfold scanBody. apply (fold_scanLine_fst PF _ (0, 0)).
      assert (Hline : forall line, In line (SplitLines body) ->
                        forall a, fst (scanLine PF a line) = fst a).
      { intros line Hin a.
        destruct (HasPrefix line "conduit_bytes_uploaded ") eqn:E.
        - rewrite scanLine_malformed; [reflexivity|]. apply (H line Hin E).
        - apply scanLine_fst. exact E. }
      intros line Hin. split; [apply Hline; exact Hin|].
      intros a _. apply Hline. exact Hin. }
    destruct (scanBody PF body) as [up down]. simpl in *. subst up. reflexivity. }
  split.
  { intros body H. simpl.
    assert (Hdown : snd (scanBody PF body) = 0).
    { unfold scanBody. apply (fold_scanLine_snd PF _ (0, 0)).
      assert (Hline : forall line, In line (SplitLines body) ->
                        forall a, snd (scanLine PF a line) = snd a).
      { intros line Hin a.
        destruct (HasPrefix line "conduit_bytes_downloaded ") eqn:E.
        - rewrite scanLine_malformed; [reflexivity|]. apply (H line Hin E).
        - apply scanLine_snd. exact E. }
      intros line Hin. split; [apply Hline; exact Hin|].
      intros a _. apply Hline. exact Hin. }
    destruct (scanBody PF body) as [up down]. simpl in *. subst down. reflexivity. }
  intros w st now resp total Hst Hbu Hnow Hscrape Htot Hlast.
  rewrite (checkTraffic_running PF now resp w st Hst Hnow), Hscrape.
  rewrite (updateUsage_spec w st total Hst). cbv zeta.
  do 2 eexists. split; [reflexivity|]. simpl. split; [reflexivity|]. simpl.
  split; [|reflexivity].
  assert (Hd : usageDelta (lastScrapeTotal (sup w)) total = total).
  { destruct (usageDelta_counters (lastScrapeTotal (sup w)) total) as [Hd _]; try lia.
    rewrite Hd. replace (total - lastScrapeTotal (sup w) <? 0) with true; [reflexivity|].
    symmetry. apply Z.ltb_lt. lia. }
  rewrite Hd. apply accounted_add; [exact Hbu|lia].
Qed.

(** C10 on a body whose upload value is [abc]: the scrape succeeds with
    the download counter alone, 300, and with 1000 seen at the last
    scrape the ledger grows by the whole 300. *)
Lemma malformed_counter_scrapes_as_zero_witness :
  scrapeBytesUsed parseDecimal (HttpResponse 200 (Some malformedBody)) = Some 300 /\
  exists w' st',
    checkTraffic parseDecimal 10 (HttpResponse 200 (Some malformedBody))
      (sampleWorld (mkTrafficState 0 5000 false) 1000) = Done tt w' /\
    state (sup w') = Some st' /\
    BytesUsed st' = Int64.add 5000 300 /\
    lastScrapeTotal (sup w') = 300.
Proof.
  destruct (malformed_counter_scrapes_as_zero parseDecimal) as (_ & Hup & _ & Htick).
  assert (Hscrape : scrapeBytesUsed parseDecimal (HttpResponse 200 (Some malformedBody))
                    = Some 300).
  { rewrite Hup; [vm_compute; reflexivity|].
    intros line Hin Hpre v Hv. vm_compute in Hin.
    destruct Hin as [<- | [<- | []]].
    - vm_compute in Hv. injection Hv as <-. vm_compute. reflexivity.
    - vm_compute in Hpre. discriminate Hpre. }
  split; [exact Hscrape|].
  apply (Htick (sampleWorld (mkTrafficState 0 5000 false) 1000)
               (mkTrafficState 0 5000 false) 10
               (HttpResponse 200 (Some malformedBody)) 300).
  - reflexivity.
  - unfold Int64.in_range, Int64.min_int, Int64.max_int. simpl. lia.
  - vm_compute. discriminate.
  - exact Hscrape.
  - simpl. lia.
  - unfold Int64.max_int. simpl. lia.
Defined.

(** ** Rewriting the launch arguments *)

Lemma filterArgs_loop (PF : string -> option float) (longFlag shortFlag : string)
    (suf pre acc : list string) (skip : bool) :
  fst (fold_left (filterStep PF (pre ++ suf) longFlag shortFlag)
         (combine (seq (List.length pre) (List.length suf)) suf) (acc, skip))
  = acc ++ (if skip then filterRec PF longFlag shortFlag (tl suf)
            else filterRec PF longFlag shortFlag suf).
Proof.
  revert pre acc skip. induction suf as [|a suf IH]; intros pre acc skip.
  - simpl. destruct skip; rewrite app_nil_r; reflexivity.
  - assert (Hnth : nth_error (pre ++ a :: suf) (List.length pre + 1) = hd_error suf).
    { rewrite nth_error_app2 by lia.
      replace (List.length pre + 1 - List.length pre)%nat with 1%nat by lia.
      destruct suf; reflexivity. }
    assert (Hcat : pre ++ a :: suf = (pre ++ [a]) ++ suf)
      by (rewrite <- app_assoc; reflexivity).
    assert (Hlen : S (List.length pre) = List.length (pre ++ [a]))
      by (rewrite length_app; simpl; lia).
    cbn [List.length seq combine fold_left tl].
    unfold filterStep at 2. cbn [filterRec].
    destruct skip.
    + rewrite Hcat, Hlen, IH. reflexivity.
    + fold (isFlag longFlag shortFlag a). fold (isFlagAssign longFlag shortFlag a).
      destruct (isFlag longFlag shortFlag a).
      * rewrite Hnth. destruct suf as [|next rest].
        -- simpl. rewrite app_nil_r. reflexivity.
        -- cbn [hd_error]. rewrite Hcat, Hlen, IH. cbn [tl].
           destruct (looksLikeValue PF next); reflexivity.
      * destruct (isFlagAssign longFlag shortFlag a).
        -- rewrite Hcat, Hlen, IH. reflexivity.
        -- rewrite Hcat, Hlen, IH. rewrite <- app_assoc. reflexivity.
Qed.

Lemma filterArgs_rec (PF : string -> option float) (longFlag shortFlag : string)
    (args : list string) :
  filterArgs PF args longFlag shortFlag = filterRec PF longFlag shortFlag args.
Proof.
  unfold filterArgs.
  exact (filterArgs_loop PF longFlag shortFlag args [] [] false).
Qed.

Lemma flagFree_mentions (longFlag shortFlag arg : string) :
  flagFree longFlag shortFlag arg <-> ~ mentions longFlag shortFlag arg.
Proof.
  unfold flagFree, mentions, isFlag, isFlagAssign.
  destruct (String.eqb_spec arg longFlag) as [E1|E1];
    destruct (String.eqb_spec arg shortFlag) as [E2|E2];
    destruct (HasPrefix arg (String.append longFlag "="));
    destruct (HasPrefix arg (String.append shortFlag "="));
    simpl; intuition discriminate.
Qed.

(** Every step of [filterRec] either drops the head or keeps a head that
    is no occurrence of the flag. *)
Lemma filterRec_cases (PF : string -> option float) (longFlag shortFlag : string)
    (P : list string -> list string -> Prop) :
  P [] [] ->
  (forall a rest r, P rest r -> P (a :: rest) r) ->
  (forall a rest r, flagFree longFlag shortFlag a -> P rest r -> P (a :: rest) (a :: r)) ->
  forall args, P args (filterRec PF longFlag shortFlag args).
Proof.
  intros Hnil Hdrop Hkeep args.
  assert (H : forall n args, (List.length args <= n)%nat ->
                             P args (filterRec PF longFlag shortFlag args)).
  { clear args. induction n as [|n IH]; intros args Hlen.
    - destruct args; [exact Hnil|simpl in Hlen; lia].
    - destruct args as [|a rest]; [exact Hnil|]. simpl in Hlen.
      cbn [filterRec].
      destruct (isFlag longFlag shortFlag a) eqn:Ef.
      + destruct rest as [|next rest'].
        * apply Hdrop. exact Hnil.
        * destruct (looksLikeValue PF next).
          -- apply Hdrop, Hdrop, IH. simpl in Hlen. lia.
          -- apply Hdrop, IH. lia.
      + destruct (isFlagAssign longFlag shortFlag a) eqn:Ea.
        * apply Hdrop, IH. lia.
        * apply Hkeep; [split; assumption|]. apply IH. lia. }
  apply (H (List.length args)). lia.
Qed.

Lemma filterArgs_subseq (PF : string -> option float) (longFlag shortFlag : string)
    (args : list string) :
  Subseq (filterArgs PF args longFlag shortFlag) args
  /\ Forall (fun a => ~ mentions longFlag shortFlag a) (filterArgs PF args longFlag shortFlag).
Proof.
  rewrite filterArgs_rec.
  apply (filterRec_cases PF longFlag shortFlag
           (fun args r => Subseq r args
                          /\ Forall (fun a => ~ mentions longFlag shortFlag a) r)).
  - split; constructor.
  - intros a rest r [Hs Hf]. split; [apply Subseq_drop; exact Hs|exact Hf].
  - intros a rest r Ha [Hs Hf]. split; [apply Subseq_keep; exact Hs|].
    apply Forall_cons; [apply flagFree_mentions; exact Ha|exact Hf].
Qed.

Lemma filterArgs_untouched (PF : string -> option float) (longFlag shortFlag : string)
    (args : list string) :
  Forall (fun a => ~ mentions longFlag shortFlag a) args ->
  filterArgs PF args longFlag shortFlag = args.
Proof.
  rewrite filterArgs_rec. induction 1 as [|a rest Ha _ IH]; [reflexivity|].
  apply flagFree_mentions in Ha. destruct Ha as [Ef Ea].
  cbn [filterRec]. rewrite Ef, Ea, IH. reflexivity.
Qed.










(** ** Stopping the child *)

Lemma timer_first_exit (env : ChildEnv) :
  race env = TimerFirst ->
  Z.max gracePeriod (exitAfterKill env gracePeriod) = exitAfterKill env gracePeriod.
Proof.
  unfold race, exitAfterKill. intros H.
  destruct (termExit env) as [t|]; [|lia].
  destruct ((t <? gracePeriod) || ((t =? gracePeriod) && negb (timerWinsTie env))) eqn:E;
    [discriminate|].
  apply orb_false_iff in E. destruct E as [E _]. apply Z.ltb_ge in E. lia.
Qed.

Lemma shutdownChild_started (env : ChildEnv) (w : World) (c : Cmd) :
  child (sup w) = Some c -> cmdProcess c = true ->
  shutdownChild env w =
  Done tt
    (mkWorld (sup w)
       (out w ++
        match race env with
        | ExitFirst t => [SendSignal SIGTERM; ExitObserved t; gracefulLog]
        | TimerFirst =>
            [SendSignal SIGTERM; TimerFired gracePeriod; killLog; SendSignal SIGKILL;
             ExitObserved (exitAfterKill env gracePeriod)]
        end)).
Proof.
  intros Hc Hp. destruct w as [s o]. simpl in *.
  unfold shutdownChild. run_monad. rewrite Hc, Hp.
  destruct (race env) eqn:Er; run_monad.
  - rewrite <- ?app_assoc. reflexivity.
  - rewrite (timer_first_exit env Er). rewrite <- ?app_assoc. reflexivity.
Qed.

(** C6: stopping a started child first sends SIGTERM and then races the
    exit notification against the 5-second timer.  When the notification
    comes first the stop ends there, with no kill.  When the timer comes
    first SIGKILL is sent and the stop waits for the notification with no
    further timer.  In every case the last thing the stop does, log lines
    apart, is to receive the exit notification, at the instant the
    process is gone or later. *)
Theorem shutdownChild_waits_for_exit (env : ChildEnv) (w : World) (c : Cmd) :
  child (sup w) = Some c ->
  cmdProcess c = true ->
  exists tr t,
    shutdownChild env w = Done tt (mkWorld (sup w) (out w ++ tr)) /\
    gracePeriod = 5 * 1000000000 /\
    hd_error tr = Some (SendSignal SIGTERM) /\
    (forall t0, termExit env = Some t0 -> t0 < gracePeriod ->
       tr = [SendSignal SIGTERM; ExitObserved t0; gracefulLog]) /\
    ((termExit env = None \/ exists t0, termExit env = Some t0 /\ gracePeriod < t0) ->
       tr = [SendSignal SIGTERM; TimerFired gracePeriod; killLog; SendSignal SIGKILL;
             ExitObserved (exitAfterKill env gracePeriod)]) /\
    (exists pre post, tr = pre ++ ExitObserved t :: post /\ Forall isLog post) /\
    (~ In (SendSignal SIGKILL) tr -> termExit env = Some t /\ t <= gracePeriod) /\
    (In (SendSignal SIGKILL) tr -> t = exitAfterKill env gracePeriod /\ gracePeriod <= t).
Proof.
  intros Hc Hp. rewrite (shutdownChild_started env w c Hc Hp).
  destruct (race env) as [t|] eqn:Er.
  - exists [SendSignal SIGTERM; ExitObserved t; gracefulLog], t.
    unfold race in Er. destruct (termExit env) as [t0|] eqn:Et; [|discriminate].
    destruct ((t0 <? gracePeriod) || ((t0 =? gracePeriod) && negb (timerWinsTie env)))
      eqn:E; [|discriminate].
    injection Er as <-.
    assert (Hle : t0 <= gracePeriod).
    { apply orb_true_iff in E. destruct E as [E | E].
      - apply Z.ltb_lt in E. lia.
      - apply andb_true_iff in E. destruct E as [E _]. apply Z.eqb_eq in E. lia. }
    split; [reflexivity|]. split; [reflexivity|]. split; [reflexivity|].
    split; [intros t1 Ht1 _; injection Ht1 as <-; reflexivity|].
    split.
    { intros [Hn | (t1 & Ht1 & Hgt)]; [discriminate|].
      injection Ht1 as <-. lia. }
    split.
    { exists [SendSignal SIGTERM], [gracefulLog]. split; [reflexivity|].
      repeat constructor. }
    split; [intros _; split; [reflexivity|exact Hle]|].
    simpl. unfold gracefulLog. intros [H | [H | [H | []]]]; discriminate H.
  - exists [SendSignal SIGTERM; TimerFired gracePeriod; killLog; SendSignal SIGKILL;
            ExitObserved (exitAfterKill env gracePeriod)],
           (exitAfterKill env gracePeriod).
    pose proof (timer_first_exit env Er) as Hmax.
    split; [reflexivity|]. split; [reflexivity|]. split; [reflexivity|].
    split.
    { intros t0 Ht0 Hlt. unfold race in Er. rewrite Ht0 in Er.
      apply Z.ltb_lt in Hlt. rewrite Hlt in Er. discriminate Er. }
    split; [reflexivity|].
    split.
    { exists [SendSignal SIGTERM; TimerFired gracePeriod; killLog; SendSignal SIGKILL], [].
      split; [reflexivity|constructor]. }
    split.
    { intros Hn. exfalso. apply Hn. simpl. tauto. }
    intros _. split; [reflexivity|lia].
Qed.

(** C6 for a child that ignores SIGTERM and dies 20 ms after SIGKILL. *)
Lemma shutdownChild_waits_for_exit_witness :
  shutdownChild (mkChildEnv None 20000000 false) throttledWorld
  = Done tt (mkWorld (sup throttledWorld)
               [SendSignal SIGTERM; TimerFired 5000000000; killLog; SendSignal SIGKILL;
                ExitObserved 5020000000]).
Proof.
  destruct (shutdownChild_waits_for_exit (mkChildEnv None 20000000 false) throttledWorld
              (mkCmd (ConduitArgs sampleConfig) true) eq_refl eq_refl)
    as (tr & t & Hrun & _ & _ & _ & Hforced & _).
  rewrite Hrun, (Hforced (or_introl eq_refl)). reflexivity.
Defined.

(** ** The supervisor as a whole *)

Lemma trySend_ok (c : Chan) : chanOk c -> chanOk (trySend c).
Proof.
  intros [Hcap Hlen]. unfold trySend, chanOk.
  destruct (List.length (chanBuf c) <? chanCap c)%nat eqn:E; simpl.
  - apply Nat.ltb_lt in E. rewrite length_app. simpl. split; [assumption|lia].
  - split; assumption.
Qed.

Lemma trySend_full (c : Chan) :
  chanCap c = 1%nat -> chanBuf c <> [] -> trySend c = c.
Proof.
  intros Hcap Hne. unfold trySend. rewrite Hcap.
  destruct (chanBuf c) as [|u rest]; [contradiction|]. reflexivity.
Qed.

Lemma trySend_empty (c : Chan) :
  chanCap c = 1%nat -> chanBuf c = [] -> trySend c = mkChan 1 [tt].
Proof.
  intros Hcap He. unfold trySend. rewrite Hcap, He. reflexivity.
Qed.

Lemma recv_ok (c c' : Chan) : chanOk c -> recv c = Some c' -> chanOk c' /\ chanBuf c' = [].
Proof.
  intros [Hcap Hlen]. unfold recv.
  destruct (chanBuf c) as [|u rest] eqn:E; [discriminate|].
  intros H. injection H as <-. simpl in *.
  destruct rest; [|simpl in Hlen; lia].
  split; [split; simpl; [assumption|lia]|reflexivity].
Qed.

Lemma checkTraffic_effect (PF : string -> option float) (now : Time)
    (resp : HttpResult) (w : World) :
  state (sup w) <> None ->
  exists w', checkTraffic PF now resp w = Done tt w' /\ tickEffect (sup w) (sup w').
Proof.
  intros Hst. destruct (state (sup w)) as [st|] eqn:Est; [clear Hst|contradiction].
  destruct (Z_lt_le_dec (PeriodStartTime st + periodDuration (cfg (sup w))) now)
    as [Hlt | Hle].
  - rewrite (checkTraffic_expired PF now resp w st Est Hlt).
    eexists. split; [reflexivity|]. unfold tickEffect. simpl.
    repeat split; try discriminate.
    destruct (IsThrottled st); [right|left]; reflexivity.
  - rewrite (checkTraffic_running PF now resp w st Est Hle).
    destruct (scrapeBytesUsed PF resp) as [total|].
    + rewrite (updateUsage_spec w st total Est). cbv zeta.
      eexists. split; [reflexivity|]. unfold tickEffect. simpl.
      repeat split; try discriminate.
      destruct (crosses _ _ _); [right|left]; reflexivity.
    + exists w. split; [reflexivity|]. unfold tickEffect.
      rewrite Est. repeat split; try discriminate. left. reflexivity.
Qed.

Lemma loopTop_launch (PF : string -> option float) (startOk : bool)
    (w : World) (st : TrafficState) :
  state (sup w) = Some st ->
  let args := launchArgs PF (cfg (sup w)) (IsThrottled st) in
  loopTop PF None startOk w =
  Done (if startOk then Waiting else Returned (Some "failed to start conduit"))
    (mkWorld
       {| cfg := cfg (sup w); state := state (sup w);
          child := Some (mkCmd args startOk);
          restartChan := restartChan (sup w);
          lastScrapeTotal := lastScrapeTotal (sup w) |}
       (out w
        ++ [Log (if IsThrottled st then "[INFO] Starting Conduit in THROTTLED mode"
                 else "[INFO] Starting Conduit in NORMAL mode");
            StartChild args]
        ++ (if startOk then [SpawnWaiter] else []))).
Proof.
  intros Hst. destruct w as [s o]. simpl in *.
  unfold loopTop. run_monad. rewrite Hst.
  destruct startOk; run_monad; rewrite <- ?app_assoc, <- ?Hst; reflexivity.
Qed.

Lemma step_inv (PF : string -> option float) (ev : Event) (ph : Phase) (w : World) :
  inv ph w ->
  match step PF ev ph w with
  | Some (Done ph' w') => inv ph' w'
  | Some Panic => False
  | None => True
  end.
Proof.
  intros (Hst & Hch & Hchild).
  destruct ph as [| |err]; [| |exact I].
  - (* at the top of the loop *)
    destruct ev as [now resp|pending startOk|status|env|env|env]; try exact I.
    + simpl. destruct (checkTraffic_effect PF now resp w Hst)
        as (w' & Hrun & Hcfg & Hc & Hs & Hr).
      unfold bind, ret. rewrite Hrun.
      split; [exact Hs|]. split; [|discriminate].
      destruct Hr as [-> | ->]; [exact Hch|apply trySend_ok; exact Hch].
    + simpl. destruct pending as [[|]|].
      * unfold ret. split; [exact Hst|]. split; [exact Hch|discriminate].
      * run_monad. split; [exact Hst|]. split; [exact Hch|discriminate].
      * destruct (state (sup w)) as [st|] eqn:Est; [|contradiction].
        rewrite (loopTop_launch PF startOk w st Est). cbv zeta.
        destruct startOk; (split; [simpl; rewrite Est; discriminate|]);
          (split; [exact Hch|]).
        -- intros _. eexists. split; reflexivity.
        -- discriminate.
  - (* blocked in the select *)
    destruct (Hchild eq_refl) as (c & Hc & Hp).
    destruct ev as [now resp|pending startOk|status|env|env|env]; try exact I.
    + simpl. destruct (checkTraffic_effect PF now resp w Hst)
        as (w' & Hrun & Hcfg & Hc' & Hs & Hr).
      unfold bind, ret. rewrite Hrun.
      split; [exact Hs|]. split.
      * destruct Hr as [-> | ->]; [exact Hch|apply trySend_ok; exact Hch].
      * intros _. exists c. rewrite Hc'. split; assumption.
    + simpl. unfold onChildExit. destruct (negb (status =? 0)); run_monad;
        (split; [exact Hst|]); (split; [exact Hch|discriminate]).
    + simpl. destruct (recv (restartChan (sup w))) as [c'|] eqn:Er; [|exact I].
      destruct (recv_ok _ _ Hch Er) as [Hch' _].
      unfold onRestart. run_monad.
      rewrite (shutdownChild_started env _ c); [|exact Hc|exact Hp].
      simpl. split; [exact Hst|]. split; [exact Hch'|discriminate].
    + simpl. unfold onSignal. run_monad.
      rewrite (shutdownChild_started env _ c); [|exact Hc|exact Hp].
      simpl. split; [exact Hst|]. split; [exact Hch|discriminate].
    + simpl. unfold onStop. run_monad.
      rewrite (shutdownChild_started env _ c); [|exact Hc|exact Hp].
      simpl. split; [exact Hst|]. split; [exact Hch|discriminate].
Qed.

Lemma run_inv (PF : string -> option float) (evs : list Event) (ph ph' : Phase)
    (w w' : World) :
  inv ph w -> run PF evs ph w = Some (Done ph' w') -> inv ph' w'.
Proof.
  revert ph w. induction evs as [|ev evs IH]; intros ph w Hinv Hrun.
  - simpl in Hrun. injection Hrun as <- <-. exact Hinv.
  - simpl in Hrun. pose proof (step_inv PF ev ph w Hinv) as Hstep.
    destruct (step PF ev ph w) as [[ph1 w1|]|]; try discriminate.
    exact (IH ph1 w1 Hstep Hrun).
Qed.

Lemma boot_inv (c : Config) (loaded : LoadResult) (now : Time) :
  exists w, boot c loaded now = Done tt w /\ inv AtLoopTop w.
Proof.
  unfold boot. destruct loaded; eexists; (split; [reflexivity|]);
    unfold inv, chanOk; simpl; repeat split; try discriminate; lia.
Qed.

(** Whenever the main loop is blocked in its [select], and so whenever
    it can be asked to stop the child, the child has been started. *)
Lemma waiting_child_started (PF : string -> option float) (c : Config)
    (loaded : LoadResult) (now : Time) (evs : list Event) (w0 w : World) :
  boot c loaded now = Done tt w0 ->
  run PF evs AtLoopTop w0 = Some (Done Waiting w) ->
  exists cmd, child (sup w) = Some cmd /\ cmdProcess cmd = true.
Proof.
  intros Hboot Hrun.
  destruct (boot_inv c loaded now) as (w0' & Hboot' & Hinv).
  rewrite Hboot in Hboot'. injection Hboot' as <-.
  destruct (run_inv PF evs _ _ _ _ Hinv Hrun) as (_ & _ & Hchild).
  exact (Hchild eq_refl).
Qed.

Lemma step_iterate (PF : string -> option float) (pending : option StopSource)
    (startOk : bool) (w : World) :
  step PF (Iterate pending startOk) AtLoopTop w = Some (loopTop PF pending startOk w).
Proof. reflexivity. Qed.

Lemma step_child_exited (PF : string -> option float) (status : Z) (w : World) :
  step PF (ChildExited status) Waiting w = Some (onChildExit status w).
Proof. reflexivity. Qed.

Lemma launches_app (tr1 tr2 : list Effect) :
  launches (tr1 ++ tr2) = launches tr1 ++ launches tr2.
Proof.
  induction tr1 as [|e tr1 IH]; [reflexivity|].
  destruct e; simpl; rewrite IH; reflexivity.
Qed.

Lemma shutdown_trace_no_launch (env : ChildEnv) :
  launches
    match race env with
    | ExitFirst t => [SendSignal SIGTERM; ExitObserved t; gracefulLog]
    | TimerFirst =>
        [SendSignal SIGTERM; TimerFired gracePeriod; killLog; SendSignal SIGKILL;
         ExitObserved (exitAfterKill env gracePeriod)]
    end = [].
Proof. destruct (race env); reflexivity. Qed.

(** C5: the restart channel never holds more than one request in any
    state the running supervisor reaches; a request raised while one is
    pending leaves the supervisor exactly as it was; and two requests
    raised before the main loop consumes one lead to one relaunch, after
    which no restart request is left to consume. *)
Theorem restart_requests_coalesce (PF : string -> option float) :
  (forall c loaded now evs ph w0 w,
     boot c loaded now = Done tt w0 ->
     run PF evs AtLoopTop w0 = Some (Done ph w) ->
     (List.length (chanBuf (restartChan (sup w))) <= 1)%nat) /\
  (forall w,
     chanOk (restartChan (sup w)) ->
     chanBuf (restartChan (sup w)) <> [] ->
     triggerRestart w = Done tt w) /\
  (forall w env env',
     inv Waiting w ->
     chanBuf (restartChan (sup w)) = [] ->
     exists w1 w3 w4,
       triggerRestart w = Done tt w1 /\
       triggerRestart w1 = Done tt w1 /\
       chanBuf (restartChan (sup w1)) = [tt] /\
       step PF (RestartRequested env) Waiting w1 = Some (Done AtLoopTop w3) /\
       step PF (Iterate None true) AtLoopTop w3 = Some (Done Waiting w4) /\
       List.length (launches (out w4)) = S (List.length (launches (out w))) /\
       step PF (RestartRequested env') Waiting w4 = None).
Proof.
  split.
  { intros c loaded now evs ph w0 w Hboot Hrun.
    destruct (boot_inv c loaded now) as (w0' & Hboot' & Hinv).
    rewrite Hboot in Hboot'. injection Hboot' as <-.
    destruct (run_inv PF evs _ _ _ _ Hinv Hrun) as (_ & (_ & Hlen) & _). exact Hlen. }
  split.
  { intros [[c st ch rc last] o] [Hcap _] Hne. simpl in *.
    unfold triggerRestart. run_monad. rewrite (trySend_full rc Hcap Hne). reflexivity. }
  intros [[c st ch [cap buf] last] o] env env' (Hst & [Hcap _] & Hchild) Hbuf.
  simpl in Hst, Hcap, Hchild, Hbuf. subst cap buf.
  destruct st as [st|]; [clear Hst|contradiction].
  destruct (Hchild eq_refl) as (cmd & Hcmd & Hproc). subst ch.
  do 3 eexists.
  split; [reflexivity|]. split; [reflexivity|]. split; [reflexivity|].
  split.
  { simpl. unfold onRestart. run_monad.
    erewrite shutdownChild_started; [|reflexivity|exact Hproc]. reflexivity. }
  split.
  { rewrite step_iterate. erewrite loopTop_launch; [|reflexivity]. reflexivity. }
  split.
  { cbn [out]. rewrite !launches_app, shutdown_trace_no_launch. simpl.
    rewrite !length_app. simpl. lia. }
  reflexivity.
Qed.

(** C5 on a running supervisor with a fresh ledger. *)
Lemma restart_requests_coalesce_witness :
  exists w1 w3 w4,
    triggerRestart nearThreshold = Done tt w1 /\
    triggerRestart w1 = Done tt w1 /\
    chanBuf (restartChan (sup w1)) = [tt] /\
    step parseDecimal (RestartRequested (mkChildEnv (Some 1000000) 0 false)) Waiting w1
    = Some (Done AtLoopTop w3) /\
    step parseDecimal (Iterate None true) AtLoopTop w3 = Some (Done Waiting w4) /\
    List.length (launches (out w4)) = S (List.length (launches (out nearThreshold))) /\
    step parseDecimal (RestartRequested (mkChildEnv (Some 1000000) 0 false)) Waiting w4
    = None.
Proof.
  destruct (restart_requests_coalesce parseDecimal) as (_ & _ & Htwice).
  apply (Htwice nearThreshold).
  - unfold inv, chanOk. simpl. repeat split; try discriminate; try lia.
    intros _. eexists. split; reflexivity.
  - reflexivity.
Defined.

(** ** Retrying a crashed worker *)

(** C9 as the code has it: when the worker exits with a non-zero status
    the main loop logs it, sleeps the fixed 5-second back-off and returns
    to the top of its loop with the supervisor untouched.  The next pass
    relaunches the worker with the arguments of the mode the ledger shows
    at that moment, which are the arguments of the failed launch when
    [isThrottled] still has the value it had then; when a stop or signal
    is pending the pass returns without relaunching.  No other failure
    is retried: a failed [Start] ends [Run] with an error, a zero exit
    ends it with nil, and nothing follows the return. *)
Theorem nonzero_exit_relaunches_in_ledger_mode (PF : string -> option float)
    (w : World) (st : TrafficState) (c : Cmd) (status : Z) :
  state (sup w) = Some st ->
  child (sup w) = Some c ->
  status <> 0 ->
  exists w1 w2,
    step PF (ChildExited status) Waiting w = Some (Done AtLoopTop w1) /\
    sup w1 = sup w /\
    out w1 = out w ++ [crashLog; Sleep (5 * Second)] /\
    step PF (Iterate None true) AtLoopTop w1 = Some (Done Waiting w2) /\
    launches (out w2)
    = launches (out w) ++ [launchArgs PF (cfg (sup w)) (IsThrottled st)] /\
    (forall b, cmdArgs c = launchArgs PF (cfg (sup w)) b -> IsThrottled st = b ->
               launches (out w2) = launches (out w) ++ [cmdArgs c]) /\
    (forall w1' st',
       state (sup w1') = Some st' ->
       exists w2',
         step PF (Iterate None true) AtLoopTop w1' = Some (Done Waiting w2') /\
         launches (out w2')
         = launches (out w1') ++ [launchArgs PF (cfg (sup w1')) (IsThrottled st')]) /\
    (forall src,
       exists w',
         step PF (Iterate (Some src) true) AtLoopTop w1 = Some (Done (Returned None) w') /\
         launches (out w') = launches (out w)) /\
    (exists w',
       step PF (Iterate None false) AtLoopTop w1
       = Some (Done (Returned (Some "failed to start conduit")) w')) /\
    (exists w', step PF (ChildExited 0) Waiting w = Some (Done (Returned None) w')) /\
    (forall ev err w', step PF ev (Returned err) w' = None).
Proof.
  intros Hst Hc Hstatus.
  assert (Hrelaunch : forall w1' st',
            state (sup w1') = Some st' ->
            exists w2',
              step PF (Iterate None true) AtLoopTop w1' = Some (Done Waiting w2') /\
              launches (out w2')
              = launches (out w1') ++ [launchArgs PF (cfg (sup w1')) (IsThrottled st')]).
  { intros w1' st' Hst'. rewrite step_iterate, (loopTop_launch PF true w1' st' Hst').
    cbv zeta. eexists. split; [reflexivity|]. cbn [out].
    rewrite launches_app. reflexivity. }
  set (w1 := mkWorld (sup w) (out w ++ [crashLog; Sleep (5 * Second)])).
  assert (Hexit : step PF (ChildExited status) Waiting w = Some (Done AtLoopTop w1)).
  { rewrite step_child_exited. unfold onChildExit.
    replace (status =? 0) with false by (symmetry; apply Z.eqb_neq; exact Hstatus).
    run_monad. unfold w1, crashLog, backoff. rewrite <- app_assoc. reflexivity. }
  assert (Hl1 : launches (out w1) = launches (out w)).
  { unfold w1. cbn [out]. rewrite launches_app. simpl. apply app_nil_r. }
  destruct (Hrelaunch w1 st Hst) as (w2 & Hstep2 & Hl2).
  rewrite Hl1 in Hl2. change (cfg (sup w1)) with (cfg (sup w)) in Hl2.
  exists w1, w2.
  split; [exact Hexit|]. split; [reflexivity|]. split; [reflexivity|].
  split; [exact Hstep2|]. split; [exact Hl2|].
  split; [intros b Hargs <-; rewrite Hargs; exact Hl2|].
  split; [exact Hrelaunch|].
  split.
  { intros [|]; rewrite step_iterate; unfold loopTop; run_monad;
      eexists; (split; [reflexivity|]); cbn [out];
      rewrite ?launches_app, ?Hl1; simpl; rewrite ?app_nil_r; reflexivity. }
  split.
  { rewrite step_iterate, (loopTop_launch PF false w1 st Hst). eexists. reflexivity. }
  split.
  { rewrite step_child_exited. unfold onChildExit. simpl. run_monad.
    eexists. reflexivity. }
  intros ev err w'. reflexivity.
Qed.

(** C9 on the throttled sample supervisor: the crashed worker is
    relaunched with the throttled arguments it had. *)
Lemma nonzero_exit_relaunches_in_ledger_mode_witness :
  launchesOf (run parseDecimal [ChildExited 1; Iterate None true] Waiting
                (mkWorld
                   {| cfg := sampleConfig;
                      state := Some (mkTrafficState 0 1000 true);
                      child := Some (mkCmd (launchArgs parseDecimal sampleConfig true) true);
                      restartChan := makeChan 1;
                      lastScrapeTotal := 0 |}
                   [StartChild (launchArgs parseDecimal sampleConfig true)]))
  = [launchArgs parseDecimal sampleConfig true;
     launchArgs parseDecimal sampleConfig true].
Proof.
  destruct (nonzero_exit_relaunches_in_ledger_mode parseDecimal
              (mkWorld
                 {| cfg := sampleConfig;
                    state := Some (mkTrafficState 0 1000 true);
                    child := Some (mkCmd (launchArgs parseDecimal sampleConfig true) true);
                    restartChan := makeChan 1;
                    lastScrapeTotal := 0 |}
                 [StartChild (launchArgs parseDecimal sampleConfig true)])
              (mkTrafficState 0 1000 true)
              (mkCmd (launchArgs parseDecimal sampleConfig true) true)
              1 eq_refl eq_refl ltac:(discriminate))
    as (w1 & w2 & Hexit & _ & _ & Hnext & _ & Hsame & _).
  cbn [run]. rewrite Hexit, Hnext. cbn [launchesOf].
  exact (Hsame true eq_refl eq_refl).
Defined.

(** C9 as stated fails when the ledger changes between the launch and
    the relaunch: the worker is launched THROTTLED and crashes, the
    period ends during the back-off, and the relaunch is in NORMAL mode
    with the operator's own arguments. *)
Lemma relaunch_after_rollover_changes_mode :
  launchesOf (run parseDecimal
                [Iterate None true; ChildExited 1;
                 Tick 604800000000001 HttpFail; Iterate None true]
                AtLoopTop
                (mkWorld
                   {| cfg := sampleConfig;
                      state := Some (mkTrafficState 0 1000 true);
                      child := None;
                      restartChan := makeChan 1;
                      lastScrapeTotal := 0 |}
                   []))
  = [["start"; "-v"; "--max-clients"; "10"; "--bandwidth"; "10"];
     ["start"; "--max-clients"; "500"; "-b=3"; "-v"]].
Proof. vm_compute. reflexivity. Qed.

(** * Further properties of the monitor *)

(** ** The command line *)

Lemma parseLoop_rec (PF : string -> option float) (fuel : nat) (args : list string)
    (i : nat) (m c : list string) :
  (List.length args - i <= fuel)%nat ->
  parseLoop PF fuel args i m c = splitRec PF (skipn i args) m c.
Proof.
  revert i m c. induction fuel as [|fuel IH]; intros i m c Hlen.
  - rewrite skipn_all2 by lia. reflexivity.
  - cbn [parseLoop]. rewrite <- hd_error_skipn.
    destruct (skipn i args) as [|arg rest] eqn:E; [reflexivity|].
    assert (Hl : List.length (skipn i args) = (List.length args - i)%nat)
      by apply length_skipn.
    rewrite E in Hl. simpl in Hl.
    assert (H1 : skipn (i + 1) args = rest).
    { rewrite Nat.add_comm, <- skipn_skipn, E. reflexivity. }
    assert (H2 : skipn (i + 2) args = tl rest).
    { rewrite Nat.add_comm, <- skipn_skipn, E. destruct rest; reflexivity. }
    assert (Hv : valueAt PF args (i + 1)
                 = match rest with
                   | next :: _ => if looksLikeValue PF next then Some next else None
                   | [] => None
                   end).
    { unfold valueAt. rewrite <- hd_error_skipn, H1. destruct rest; reflexivity. }
    cbn [hd_error splitRec]. rewrite Hv, H1.
    destruct (String.eqb arg "--"); [reflexivity|].
    destruct rest as [|next rest']; cbn [tl] in H2;
      destruct (isMonitorOnly arg); destruct (Contains arg "=");
      destruct (isDataDirFlag arg || isMetricsAddrFlag arg);
      try destruct (looksLikeValue PF next);
      rewrite ?(IH (i + 1)%nat), ?(IH (i + 2)%nat), ?H1, ?H2 by lia;
      rewrite <- ?app_assoc; reflexivity.
Qed.

Lemma splitArgs_rec (PF : string -> option float) (args : list string) :
  splitArgs PF args = splitRec PF args [] ["start"].
Proof.
  unfold splitArgs. rewrite parseLoop_rec by lia. reflexivity.
Qed.

Lemma Subseq_refl {A : Type} (l : list A) : Subseq l l.
Proof. induction l; [apply Subseq_nil|apply Subseq_keep; assumption]. Qed.

Lemma Subseq_nil_l {A : Type} (l : list A) : Subseq [] l.
Proof. induction l; [apply Subseq_nil|apply Subseq_drop; assumption]. Qed.

Lemma Subseq_app {A : Type} (l1 l2 l3 l4 : list A) :
  Subseq l1 l2 -> Subseq l3 l4 -> Subseq (l1 ++ l3) (l2 ++ l4).
Proof.
  intros H12 H34. induction H12 as [|x l1 l2 _ IH|x l1 l2 _ IH]; simpl.
  - exact H34.
  - apply Subseq_drop. exact IH.
  - apply Subseq_keep. exact IH.
Qed.

Lemma afterSeparator_subseq (rest : list string) : Subseq (afterSeparator rest) rest.
Proof.
  unfold afterSeparator. destruct rest as [|first rest']; [apply Subseq_nil|].
  destruct (String.eqb first "start"); [apply Subseq_drop|]; apply Subseq_refl.
Qed.

(** One turn of the loop on an argument other than [--]: it uses up the
    argument, alone or with the value after it, and appends what it used
    to the monitor's list, to conduit's, or to both. *)
Lemma splitRec_step (PF : string -> option float) (arg : string) (rest : list string) :
  String.eqb arg "--" = false ->
  exists used rest' dm dc,
    arg :: rest = used ++ rest' /\
    (used = [arg] \/ exists next, used = [arg; next] /\ looksLikeValue PF next = true) /\
    (dm = used \/ dm = []) /\
    (dm = used \/ dc = used) /\
    (isMonitorOnly arg = true -> dc = []) /\
    (isMonitorOnly arg = false -> dc = used) /\
    forall m c, splitRec PF (arg :: rest) m c = splitRec PF rest' (m ++ dm) (c ++ dc).
Proof.
  intros Hsep.
  assert (Hone : forall dm dc,
            (dm = [arg] \/ dm = []) -> (dm = [arg] \/ dc = [arg]) ->
            (isMonitorOnly arg = true -> dc = []) ->
            (isMonitorOnly arg = false -> dc = [arg]) ->
            (forall m c, splitRec PF (arg :: rest) m c
                         = splitRec PF rest (m ++ dm) (c ++ dc)) ->
            exists used rest' dm dc,
              arg :: rest = used ++ rest' /\
              (used = [arg] \/ exists next, used = [arg; next]
                                            /\ looksLikeValue PF next = true) /\
              (dm = used \/ dm = []) /\ (dm = used \/ dc = used) /\
              (isMonitorOnly arg = true -> dc = []) /\
              (isMonitorOnly arg = false -> dc = used) /\
              forall m c, splitRec PF (arg :: rest) m c
                          = splitRec PF rest' (m ++ dm) (c ++ dc)).
  { intros dm dc H1 H2 H3 H4 H5. exists [arg], rest, dm, dc.
    repeat split; try assumption. left. reflexivity. }
  assert (Htwo : forall next rest' dm dc,
            rest = next :: rest' -> looksLikeValue PF next = true ->
            (dm = [arg; next] \/ dm = []) -> (dm = [arg; next] \/ dc = [arg; next]) ->
            (isMonitorOnly arg = true -> dc = []) ->
            (isMonitorOnly arg = false -> dc = [arg; next]) ->
            (forall m c, splitRec PF (arg :: rest) m c
                         = splitRec PF rest' (m ++ dm) (c ++ dc)) ->
            exists used rest' dm dc,
              arg :: rest = used ++ rest' /\
              (used = [arg] \/ exists next, used = [arg; next]
                                            /\ looksLikeValue PF next = true) /\
              (dm = used \/ dm = []) /\ (dm = used \/ dc = used) /\
              (isMonitorOnly arg = true -> dc = []) /\
              (isMonitorOnly arg = false -> dc = used) /\
              forall m c, splitRec PF (arg :: rest) m c
                          = splitRec PF rest' (m ++ dm) (c ++ dc)).
  { intros next rest' dm dc -> Hv H1 H2 H3 H4 H5. exists [arg; next], rest', dm, dc.
    repeat split; try assumption. right. exists next. split; [reflexivity|assumption]. }
  destruct (isMonitorOnly arg) eqn:Em.
  - destruct (Contains arg "=") eqn:Ec.
    + apply (Hone [arg] []); try tauto; try discriminate.
      intros m c. cbn [splitRec]. rewrite Hsep, Em, Ec, app_nil_r.
      destruct rest; reflexivity.
    + destruct rest as [|next rest'].
      * apply (Hone [arg] []); try tauto; try discriminate.
        intros m c. cbn [splitRec]. rewrite Hsep, Em, Ec, app_nil_r. reflexivity.
      * destruct (looksLikeValue PF next) eqn:Ev.
        -- apply (Htwo next rest' [arg; next] []); try tauto; try discriminate.
           intros m c. cbn [splitRec]. rewrite Hsep, Em, Ec, Ev, app_nil_r. reflexivity.
        -- apply (Hone [arg] []); try tauto; try discriminate.
           intros m c. cbn [splitRec]. rewrite Hsep, Em, Ec, Ev, app_nil_r. reflexivity.
  - destruct (isDataDirFlag arg || isMetricsAddrFlag arg) eqn:Es.
    + destruct (Contains arg "=") eqn:Ec.
      * apply (Hone [arg] [arg]); try tauto; try discriminate.
        intros m c. cbn [splitRec]. rewrite Hsep, Em, Es, Ec. reflexivity.
      * destruct rest as [|next rest'].
        -- apply (Hone [] [arg]); try tauto; try discriminate.
           intros m c. cbn [splitRec]. rewrite Hsep, Em, Es, Ec, app_nil_r. reflexivity.
        -- destruct (looksLikeValue PF next) eqn:Ev.
           ++ apply (Htwo next rest' [arg; next] [arg; next]); try tauto; try discriminate.
              intros m c. cbn [splitRec]. rewrite Hsep, Em, Es, Ec, Ev. reflexivity.
           ++ apply (Hone [] [arg]); try tauto; try discriminate.
              intros m c. cbn [splitRec]. rewrite Hsep, Em, Es, Ec, Ev, app_nil_r.
              reflexivity.
    + destruct (Contains arg "=") eqn:Ec.
      * apply (Hone [] [arg]); try tauto; try discriminate.
        intros m c. cbn [splitRec]. rewrite Hsep, Em, Es, Ec, app_nil_r.
        destruct rest; reflexivity.
      * destruct rest as [|next rest'].
        -- apply (Hone [] [arg]); try tauto; try discriminate.
           intros m c. cbn [splitRec]. rewrite Hsep, Em, Es, Ec, app_nil_r. reflexivity.
        -- destruct (looksLikeValue PF next) eqn:Ev.
           ++ apply (Htwo next rest' [] [arg; next]); try tauto; try discriminate.
              intros m c. cbn [splitRec]. rewrite Hsep, Em, Es, Ec, Ev, app_nil_r.
              reflexivity.
           ++ apply (Hone [] [arg]); try tauto; try discriminate.
              intros m c. cbn [splitRec]. rewrite Hsep, Em, Es, Ec, Ev, app_nil_r.
              reflexivity.
Qed.

Lemma used_length (A : Type) (arg : A) (rest used rest' : list A) :
  arg :: rest = used ++ rest' ->
  (used = [arg] \/ exists next, used = [arg; next]) ->
  (List.length rest' <= List.length rest)%nat.
Proof.
  intros Heq Hused. apply (f_equal (@List.length A)) in Heq.
  rewrite length_app in Heq. simpl in Heq.
  destruct Hused as [-> | (next & ->)]; simpl in Heq; lia.
Qed.

Lemma splitRec_grows (PF : string -> option float) (args m c : list string) :
  exists m' c',
    splitRec PF args m c = (m ++ m', c ++ c') /\ Subseq m' args /\ Subseq c' args.
Proof.
  assert (H : forall n args m c, (List.length args <= n)%nat ->
            exists m' c',
              splitRec PF args m c = (m ++ m', c ++ c')
              /\ Subseq m' args /\ Subseq c' args).
  { clear. induction n as [|n IH]; intros args m c Hlen.
    - destruct args; [|simpl in Hlen; lia].
      exists [], []. rewrite !app_nil_r. repeat split; apply Subseq_nil.
    - destruct args as [|arg rest].
      + exists [], []. rewrite !app_nil_r. repeat split; apply Subseq_nil.
      + destruct (String.eqb arg "--") eqn:Hsep.
        * exists [], (afterSeparator rest). cbn [splitRec]. rewrite Hsep, app_nil_r.
          split; [reflexivity|]. split; [apply Subseq_nil_l|].
          apply Subseq_drop, afterSeparator_subseq.
        * destruct (splitRec_step PF arg rest Hsep)
            as (used & rest' & dm & dc & Heq & Hused & Hdm & Hboth & Hmon & Hoth & Hrec).
          assert (Hlen' : (List.length rest' <= n)%nat).
          { simpl in Hlen.
            pose proof (used_length _ arg rest used rest' Heq) as Hl.
            assert (Hu : used = [arg] \/ exists next, used = [arg; next]).
            { destruct Hused as [-> | (next & -> & _)]; [left|right; exists next];
                reflexivity. }
            specialize (Hl Hu). lia. }
          destruct (IH rest' (m ++ dm) (c ++ dc) Hlen') as (m' & c' & Hr & Hsm & Hsc).
          exists (dm ++ m'), (dc ++ c'). rewrite Hrec, Hr, <- !app_assoc.
          split; [reflexivity|]. rewrite Heq.
          assert (Hdc : dc = used \/ dc = []).
          { destruct (isMonitorOnly arg); [right; apply Hmon|left; apply Hoth];
              reflexivity. }
          split; apply Subseq_app; try assumption.
          -- destruct Hdm as [-> | ->]; [apply Subseq_refl|apply Subseq_nil_l].
          -- destruct Hdc as [-> | ->]; [apply Subseq_refl|apply Subseq_nil_l]. }
  apply (H (List.length args)). lia.
Qed.

(** X1: [parseFlags] hands conduit the command [start] followed by some of
    the command-line arguments in their order, and hands the [flag]
    package some of the command-line arguments in their order: it makes
    up no argument and reorders none. *)
Theorem splitArgs_order (PF : string -> option float) (args : list string) :
  exists rest,
    snd (splitArgs PF args) = "start" :: rest /\
    Subseq rest args /\
    Subseq (fst (splitArgs PF args)) args.
Proof.
  rewrite splitArgs_rec.
  destruct (splitRec_grows PF args [] ["start"]) as (m' & c' & Hr & Hsm & Hsc).
  rewrite Hr. exists c'. repeat split; assumption.
Qed.

Lemma splitRec_keeps_all (PF : string -> option float) (args m c : list string) :
  In "start" c ->
  forall a, In a args -> a <> "--" ->
            In a (fst (splitRec PF args m c)) \/ In a (snd (splitRec PF args m c)).
Proof.
  assert (H : forall n args m c, (List.length args <= n)%nat -> In "start" c ->
            forall a, In a args -> a <> "--" ->
                      In a (fst (splitRec PF args m c))
                      \/ In a (snd (splitRec PF args m c))).
  { clear. induction n as [|n IH]; intros args m c Hlen Hstart a Hin Hne.
    - destruct args; [contradiction|simpl in Hlen; lia].
    - destruct args as [|arg rest]; [contradiction|].
      destruct (String.eqb arg "--") eqn:Hsep.
      + cbn [splitRec]. rewrite Hsep. cbn [fst snd]. right.
        apply String.eqb_eq in Hsep. subst arg.
        destruct Hin as [<- | Hin]; [contradiction|].
        apply in_or_app. unfold afterSeparator.
        destruct rest as [|first rest']; [contradiction|].
        destruct (String.eqb_spec first "start") as [-> | Hf]; [|right; exact Hin].
        destruct Hin as [<- | Hin]; [left; exact Hstart|right; exact Hin].
      + destruct (splitRec_step PF arg rest Hsep)
          as (used & rest' & dm & dc & Heq & Hused & Hdm & Hboth & Hmon & Hoth & Hrec).
        assert (Hlen' : (List.length rest' <= n)%nat).
        { simpl in Hlen.
          pose proof (used_length _ arg rest used rest' Heq) as Hl.
          assert (Hu : used = [arg] \/ exists next, used = [arg; next]).
          { destruct Hused as [-> | (next & -> & _)]; [left|right; exists next];
              reflexivity. }
          specialize (Hl Hu). lia. }
        rewrite Hrec. rewrite Heq in Hin. apply in_app_or in Hin.
        destruct Hin as [Hin | Hin].
        * destruct (splitRec_grows PF rest' (m ++ dm) (c ++ dc))
            as (m' & c' & Hr & _ & _).
          rewrite Hr. cbn [fst snd].
          destruct Hboth as [-> | ->]; [left|right];
            apply in_or_app; left; apply in_or_app; right; exact Hin.
        * apply (IH rest' (m ++ dm) (c ++ dc) Hlen'); try assumption.
          apply in_or_app. left. exact Hstart. }
  intros Hstart a Hin Hne. apply (H (List.length args)); try assumption. lia.
Qed.

(** X2: [parseFlags] loses no argument: every command-line argument other
    than the separator [--] is handed to the [flag] package or to
    conduit. *)
Theorem splitArgs_keeps_all (PF : string -> option float) (args : list string) (a : string) :
  In a args -> a <> "--" ->
  In a (fst (splitArgs PF args)) \/ In a (snd (splitArgs PF args)).
Proof.
  intros Hin Hne. rewrite splitArgs_rec.
  apply splitRec_keeps_all; try assumption. left. reflexivity.
Qed.

Lemma splitArgs_keeps_all_witness :
  In "-v" (fst (splitArgs parseDecimal ["--traffic-limit"; "100"; "-v"; "--"; "start"]))
  \/ In "-v" (snd (splitArgs parseDecimal ["--traffic-limit"; "100"; "-v"; "--"; "start"])).
Proof.
  apply (splitArgs_keeps_all parseDecimal
           ["--traffic-limit"; "100"; "-v"; "--"; "start"] "-v").
  - simpl. tauto.
  - discriminate.
Defined.

Lemma splitRec_separator (PF : string -> option float) (rest : list string) :
  PF "--" = None ->
  forall n pre m c,
    (List.length pre <= n)%nat -> ~ In "--" pre ->
    splitRec PF (pre ++ "--" :: rest) m c
    = (fst (splitRec PF pre m c), snd (splitRec PF pre m c) ++ afterSeparator rest).
Proof.
  intros Hpf.
  assert (Hdash : looksLikeValue PF "--" = false).
  { unfold looksLikeValue. simpl. rewrite Hpf. reflexivity. }
  induction n as [|n IH]; intros pre m c Hlen Hno.
  - destruct pre; [reflexivity|simpl in Hlen; lia].
  - destruct pre as [|arg pre']; [reflexivity|].
    assert (Hsep : String.eqb arg "--" = false).
    { apply String.eqb_neq. intros ->. apply Hno. left. reflexivity. }
    assert (Hno' : ~ In "--" pre') by (intros H; apply Hno; right; exact H).
    simpl in Hlen.
    destruct pre' as [|next pre''].
    + cbn [app splitRec]. rewrite Hsep, Hdash.
      destruct (isMonitorOnly arg); destruct (Contains arg "=");
        destruct (isDataDirFlag arg || isMetricsAddrFlag arg);
        cbn [splitRec String.eqb Ascii.eqb Bool.eqb fst snd]; reflexivity.
    + assert (Hno'' : ~ In "--" pre'') by (intros H; apply Hno'; right; exact H).
      simpl in Hlen.
      cbn [app splitRec]. rewrite Hsep.
      destruct (isMonitorOnly arg); destruct (Contains arg "=");
        destruct (isDataDirFlag arg || isMetricsAddrFlag arg);
        destruct (looksLikeValue PF next);
        first [ apply (IH (next :: pre'')); [simpl; lia|exact Hno']
              | apply (IH pre''); [lia|exact Hno''] ].
Qed.

(** X3: Whatever follows the first [--] on the command line is handed to
    conduit as it is, less a leading [start], and has no effect on what
    the arguments before it give: none of it is read as a monitor flag. *)
Theorem splitArgs_separator (PF : string -> option float) (pre rest : list string) :
  PF "--" = None ->
  ~ In "--" pre ->
  splitArgs PF (pre ++ "--" :: rest)
  = (fst (splitArgs PF pre), snd (splitArgs PF pre) ++ afterSeparator rest).
Proof.
  intros Hpf Hno. rewrite !splitArgs_rec.
  apply (splitRec_separator PF rest Hpf (List.length pre)); [lia|exact Hno].
Qed.

Lemma splitArgs_separator_witness :
  splitArgs parseDecimal
    (["--traffic-limit"; "100"; "-d"; "/data"] ++ "--" :: ["start"; "--traffic-limit"; "-v"])
  = (["--traffic-limit"; "100"; "-d"; "/data"],
     ["start"; "-d"; "/data"] ++ ["--traffic-limit"; "-v"]).
Proof.
  rewrite (splitArgs_separator parseDecimal
             ["--traffic-limit"; "100"; "-d"; "/data"]
             ["start"; "--traffic-limit"; "-v"]).
  - vm_compute. reflexivity.
  - reflexivity.
  - simpl. intros [H | [H | [H | [H | []]]]]; discriminate H.
Defined.

Lemma monitorOnly_dash (a : string) : isMonitorOnly a = true -> HasPrefix a "-" = true.
Proof.
  unfold isMonitorOnly. intros H.
  repeat (apply orb_true_iff in H; destruct H as [H | H]);
    destruct (prefix_split _ _ H) as [r ->]; reflexivity.
Qed.

Lemma value_not_monitorOnly (PF : string -> option float) (a : string) :
  (forall a, isMonitorOnly a = true -> PF a = None) ->
  looksLikeValue PF a = true -> isMonitorOnly a = false.
Proof.
  intros Hpf Hv. destruct (isMonitorOnly a) eqn:E; [|reflexivity].
  unfold looksLikeValue in Hv. rewrite (monitorOnly_dash a E), (Hpf a E) in Hv.
  discriminate Hv.
Qed.

Lemma splitRec_no_leak (PF : string -> option float) :
  (forall a, isMonitorOnly a = true -> PF a = None) ->
  forall n args m c,
    (List.length args <= n)%nat -> ~ In "--" args ->
    exists c',
      snd (splitRec PF args m c) = c ++ c'
      /\ Forall (fun a => isMonitorOnly a = false) c'.
Proof.
  intros Hpf. induction n as [|n IH]; intros args m c Hlen Hno.
  - destruct args; [|simpl in Hlen; lia]. exists []. rewrite app_nil_r.
    split; [reflexivity|constructor].
  - destruct args as [|arg rest].
    { exists []. rewrite app_nil_r. split; [reflexivity|constructor]. }
    assert (Hsep : String.eqb arg "--" = false).
    { apply String.eqb_neq. intros ->. apply Hno. left. reflexivity. }
    destruct (splitRec_step PF arg rest Hsep)
      as (used & rest' & dm & dc & Heq & Hused & Hdm & Hboth & Hmon & Hoth & Hrec).
    assert (Hlen' : (List.length rest' <= n)%nat).
    { simpl in Hlen.
      pose proof (used_length _ arg rest used rest' Heq) as Hl.
      assert (Hu : used = [arg] \/ exists next, used = [arg; next]).
      { destruct Hused as [-> | (next & -> & _)]; [left|right; exists next];
          reflexivity. }
      specialize (Hl Hu). lia. }
    assert (Hno' : ~ In "--" rest').
    { intros H. apply Hno. rewrite Heq. apply in_or_app. right. exact H. }
    destruct (IH rest' (m ++ dm) (c ++ dc) Hlen' Hno') as (c' & Hr & Hf).
    exists (dc ++ c'). rewrite Hrec, Hr, <- app_assoc. split; [reflexivity|].
    apply Forall_app. split; [|exact Hf].
    destruct (isMonitorOnly arg) eqn:Em.
    + rewrite (Hmon eq_refl). constructor.
    + rewrite (Hoth eq_refl).
      destruct Hused as [-> | (next & -> & Hv)].
      * constructor; [exact Em|constructor].
      * constructor; [exact Em|].
        constructor; [exact (value_not_monitorOnly PF next Hpf Hv)|constructor].
Qed.

(** X4: Without the separator [--] on the command line, no argument that
    begins like a monitor-only flag ([--traffic-limit], [--traffic-period],
    [--bandwidth-threshold], [--min-connections], [--min-bandwidth])
    reaches conduit, given that [ParseFloat] takes none of them for a
    number. *)
Theorem splitArgs_no_leak (PF : string -> option float) (args : list string) :
  (forall a, isMonitorOnly a = true -> PF a = None) ->
  ~ In "--" args ->
  Forall (fun a => isMonitorOnly a = false) (snd (splitArgs PF args)).
Proof.
  intros Hpf Hno. rewrite splitArgs_rec.
  destruct (splitRec_no_leak PF Hpf (List.length args) args [] ["start"])
    as (c' & Hr & Hf); [lia|exact Hno|].
  rewrite Hr. constructor; [reflexivity|exact Hf].
Qed.

Lemma parseDecimal_dash (a : string) : HasPrefix a "-" = true -> parseDecimal a = None.
Proof.
  intros H. destruct (prefix_split _ _ H) as [r ->].
  unfold parseDecimal. simpl. destruct (String.length r <=? 17)%nat; reflexivity.
Qed.

Lemma splitArgs_no_leak_witness :
  Forall (fun a => isMonitorOnly a = false)
    (snd (splitArgs parseDecimal
            ["--traffic-limit=100"; "--max-clients"; "50"; "--min-bandwidth"; "5"])).
Proof.
  apply (splitArgs_no_leak parseDecimal).
  - intros a Ha. apply parseDecimal_dash, monitorOnly_dash. exact Ha.
  - simpl. intros [H | [H | [H | [H | [H | []]]]]]; discriminate H.
Defined.

(** ** Filtering twice *)

(** X6: [filterArgs] is idempotent: what it returns holds no occurrence of
    the flag, so filtering it again for the same flag changes nothing. *)
Theorem filterArgs_idempotent (PF : string -> option float) (args : list string)
    (longFlag shortFlag : string) :
  filterArgs PF (filterArgs PF args longFlag shortFlag) longFlag shortFlag
  = filterArgs PF args longFlag shortFlag.
Proof.
  apply filterArgs_untouched.
  exact (proj2 (filterArgs_subseq PF longFlag shortFlag args)).
Qed.

(** ** The ledger and the state file *)

Lemma diskAfter_app (disk : option TrafficState) (tr1 tr2 : list Effect) :
  diskAfter disk (tr1 ++ tr2) = diskAfter (diskAfter disk tr1) tr2.
Proof.
  revert disk. induction tr1 as [|e tr1 IH]; intros disk; [reflexivity|].
  destruct e; simpl; apply IH.
Qed.

Lemma diskAfter_no_save (disk : option TrafficState) (tr : list Effect) :
  Forall (fun e => ~ isSave e) tr -> diskAfter disk tr = disk.
Proof.
  induction 1 as [|e tr He _ IH]; [reflexivity|].
  destruct e; simpl in *; try exact IH. exfalso. apply He. exact I.
Qed.

Lemma shutdownChild_frame (env : ChildEnv) (w : World) :
  exists tr,
    shutdownChild env w = Done tt (mkWorld (sup w) (out w ++ tr))
    /\ Forall (fun e => ~ isSave e) tr
    /\ launches tr = [].
Proof.
  destruct (child (sup w)) as [c|] eqn:Ec.
  - destruct (cmdProcess c) eqn:Ep.
    + rewrite (shutdownChild_started env w c Ec Ep).
      eexists. split; [reflexivity|].
      destruct (race env); (split; [no_save|reflexivity]).
    + exists [DrainExit]. unfold shutdownChild. run_monad. rewrite Ec, Ep.
      split; [reflexivity|]. split; [no_save|reflexivity].
  - exists [DrainExit]. unfold shutdownChild. run_monad. rewrite Ec.
    split; [reflexivity|]. split; [no_save|reflexivity].
Qed.

Lemma main_step_frame (PF : string -> option float) (ev : Event)
    (ph ph' : Phase) (w w' : World) :
  (forall now resp, ev <> Tick now resp) ->
  step PF ev ph w = Some (Done ph' w') ->
  state (sup w') = state (sup w) /\
  lastScrapeTotal (sup w') = lastScrapeTotal (sup w) /\
  cfg (sup w') = cfg (sup w) /\
  exists tr, out w' = out w ++ tr /\ Forall (fun e => ~ isSave e) tr.
Proof.
  intros Hev Hstep.
  assert (Hshut : forall env (pre : list Effect) s (k : Phase),
            (forall e, In e pre -> ~ isSave e) ->
            (shutdownChild env ;;; ret k) (mkWorld s (out w ++ pre)) = Done ph' w' ->
            state (sup w') = state s /\ lastScrapeTotal (sup w') = lastScrapeTotal s
            /\ cfg (sup w') = cfg s
            /\ exists tr, out w' = out w ++ tr /\ Forall (fun e => ~ isSave e) tr).
  { intros env pre s k Hpre H.
    destruct (shutdownChild_frame env (mkWorld s (out w ++ pre))) as (tr & Hrun & Hns & _).
    unfold bind, ret in H. rewrite Hrun in H. injection H as _ <-. simpl.
    repeat split. exists (pre ++ tr). rewrite app_assoc. split; [reflexivity|].
    apply Forall_app. split; [apply Forall_forall; exact Hpre|exact Hns]. }
  destruct ph as [| |err]; [| |discriminate].
  - destruct ev as [now resp|pending startOk|status|env|env|env]; try discriminate.
    + exfalso. exact (Hev now resp eq_refl).
    + rewrite step_iterate in Hstep. injection Hstep as Hstep.
      destruct pending as [[|]|].
      * unfold loopTop, ret in Hstep. injection Hstep as _ <-.
        repeat split. exists []. rewrite app_nil_r. split; [reflexivity|constructor].
      * unfold loopTop in Hstep. run_monad. simpl in Hstep. injection Hstep as _ <-.
        simpl. repeat split. eexists. split; [reflexivity|no_save].
      * destruct (state (sup w)) as [st|] eqn:Est.
        -- rewrite (loopTop_launch PF startOk w st Est) in Hstep. cbv zeta in Hstep.
           injection Hstep as _ <-. simpl. rewrite ?Est. repeat split.
           eexists. split; [reflexivity|]. destruct startOk; no_save.
        -- unfold loopTop, bind, getState in Hstep. rewrite Est in Hstep.
           discriminate Hstep.
  - destruct ev as [now resp|pending startOk|status|env|env|env]; try discriminate.
    + exfalso. exact (Hev now resp eq_refl).
    + rewrite step_child_exited in Hstep. injection Hstep as Hstep.
      unfold onChildExit in Hstep.
      destruct (negb (status =? 0)); run_monad; simpl in Hstep;
        injection Hstep as _ <-; simpl; repeat split.
      * exists [Log "[ERROR] Conduit exited with error"; Sleep backoff].
        split; [rewrite <- app_assoc; reflexivity|no_save].
      * exists [Log "[INFO] Conduit exited normally"].
        split; [reflexivity|no_save].
    + simpl in Hstep. destruct (recv (restartChan (sup w))) as [c'|]; [|discriminate].
      injection Hstep as Hstep. unfold onRestart in Hstep.
      apply (Hshut env [Log "[INFO] Restarting Conduit to apply new settings..."]
                   {| cfg := cfg (sup w); state := state (sup w); child := child (sup w);
                      restartChan := c'; lastScrapeTotal := lastScrapeTotal (sup w) |}
                   AtLoopTop).
      * intros e [<- | []]. simpl. tauto.
      * exact Hstep.
    + simpl in Hstep. injection Hstep as Hstep. unfold onSignal in Hstep.
      destruct w as [s o].
      apply (Hshut env [Log "[INFO] Received signal, shutting down..."] s (Returned None)).
      * intros e [<- | []]. simpl. tauto.
      * exact Hstep.
    + simpl in Hstep. injection Hstep as Hstep. unfold onStop in Hstep.
      destruct w as [s o].
      apply (Hshut env [] s (Returned None)).
      * intros e [].
      * simpl. rewrite app_nil_r. exact Hstep.
Qed.

(** X7: The main loop never touches the accounting: launching, a crash and
    its back-off, a restart, a signal and a stop leave the ledger and
    [lastScrapeTotal] as they are and write nothing to the state file.
    Only a monitor tick changes them. *)
Theorem main_loop_keeps_ledger (PF : string -> option float) (ev : Event)
    (ph ph' : Phase) (w w' : World) :
  (forall now resp, ev <> Tick now resp) ->
  step PF ev ph w = Some (Done ph' w') ->
  state (sup w') = state (sup w) /\
  lastScrapeTotal (sup w') = lastScrapeTotal (sup w) /\
  cfg (sup w') = cfg (sup w) /\
  exists tr, out w' = out w ++ tr /\ Forall (fun e => ~ isSave e) tr.
Proof. exact (main_step_frame PF ev ph ph' w w'). Qed.

Lemma main_loop_keeps_ledger_witness :
  state (sup (mkWorld (sup throttledWorld)
                (out throttledWorld ++ [crashLog; Sleep (5 * Second)])))
  = state (sup throttledWorld).
Proof.
  refine (proj1 (main_loop_keeps_ledger parseDecimal (ChildExited 1) Waiting AtLoopTop
                   throttledWorld _ _ _)).
  - intros now resp. discriminate.
  - reflexivity.
Defined.

Lemma ledger_eta (st : TrafficState) :
  mkTrafficState (PeriodStartTime st) (BytesUsed st) (IsThrottled st) = st.
Proof. destruct st; reflexivity. Qed.

Lemma tick_disk (PF : string -> option float) (now : Time) (resp : HttpResult)
    (w : World) :
  state (sup w) <> None ->
  exists w' tr,
    checkTraffic PF now resp w = Done tt w'
    /\ out w' = out w ++ tr
    /\ diskAfter (state (sup w)) tr = state (sup w').
Proof.
  intros Hst. destruct (state (sup w)) as [st|] eqn:Est; [clear Hst|contradiction].
  destruct (Z_lt_le_dec (PeriodStartTime st + periodDuration (cfg (sup w))) now)
    as [Hlt | Hle].
  - rewrite (checkTraffic_expired PF now resp w st Est Hlt).
    do 2 eexists. split; [reflexivity|]. split; reflexivity.
  - rewrite (checkTraffic_running PF now resp w st Est Hle).
    destruct (scrapeBytesUsed PF resp) as [total|].
    + rewrite (updateUsage_spec w st total Est). cbv zeta.
      do 2 eexists. split; [reflexivity|]. split; [reflexivity|]. simpl.
      rewrite diskAfter_app.
      destruct (crosses _ _ _); simpl; [reflexivity|].
      rewrite orb_false_r. unfold accounted.
      destruct (0 <? _); simpl; [reflexivity|].
      rewrite ledger_eta. reflexivity.
    + exists w, []. rewrite app_nil_r, Est. repeat split.
Qed.

Lemma run_disk (PF : string -> option float) (disk : option TrafficState)
    (evs : list Event) (ph ph' : Phase) (w w' : World) :
  state (sup w) <> None ->
  diskAfter disk (out w) = state (sup w) ->
  run PF evs ph w = Some (Done ph' w') ->
  diskAfter disk (out w') = state (sup w').
Proof.
  revert ph w. induction evs as [|ev evs IH]; intros ph w Hst Hdisk Hrun.
  - simpl in Hrun. injection Hrun as _ <-. exact Hdisk.
  - simpl in Hrun.
    destruct (step PF ev ph w) as [[ph1 w1|]|] eqn:Hstep; try discriminate.
    apply (IH ph1 w1); [| |exact Hrun].
    + destruct ev as [now resp|pending startOk|status|env|env|env];
        try (main_event Hstep Hnt;
             destruct (main_step_frame PF _ ph ph1 w w1 Hnt Hstep) as (Hs & _);
             rewrite Hs; exact Hst).
      destruct ph; try discriminate; simpl in Hstep;
        destruct (checkTraffic_effect PF now resp w Hst) as (w2 & Hrun2 & _ & _ & Hs & _);
        unfold bind, ret in Hstep; rewrite Hrun2 in Hstep;
        injection Hstep as _ <-; exact Hs.
    + destruct ev as [now resp|pending startOk|status|env|env|env];
        try (main_event Hstep Hnt;
             destruct (main_step_frame PF _ ph ph1 w w1 Hnt Hstep)
               as (Hs & _ & _ & tr & Ho & Hns);
             rewrite Hs, Ho, diskAfter_app, Hdisk; apply diskAfter_no_save; exact Hns).
      destruct (tick_disk PF now resp w Hst) as (w2 & tr & Hrun2 & Hout & Hd).
      destruct ph; try discriminate; simpl in Hstep;
        unfold bind, ret in Hstep; rewrite Hrun2 in Hstep;
        injection Hstep as _ <-; rewrite Hout, diskAfter_app, Hdisk; exact Hd.
Qed.

(** X8: In every run of the supervisor the state file follows the ledger:
    after each step, the last ledger written to the file (or the one
    loaded from it, when nothing was written since) is the ledger in
    memory.  Writes are taken to succeed. *)
Theorem state_file_follows_ledger (PF : string -> option float) (c : Config)
    (loaded : LoadResult) (now : Time) (evs : list Event) (ph : Phase) (w0 w : World) :
  boot c loaded now = Done tt w0 ->
  run PF evs AtLoopTop w0 = Some (Done ph w) ->
  diskAfter (diskOf loaded) (out w) = state (sup w).
Proof.
  intros Hboot Hrun.
  apply (run_disk PF (diskOf loaded) evs AtLoopTop ph w0 w); [| |exact Hrun].
  - destruct (boot_inv c loaded now) as (w0' & Hboot' & Hst & _).
    rewrite Hboot in Hboot'. injection Hboot' as <-. exact Hst.
  - unfold boot in Hboot. destruct loaded; simpl in Hboot;
      injection Hboot as <-; reflexivity.
Qed.

Lemma state_file_follows_ledger_witness :
  diskAfter (diskOf NotExist)
    (out (mkWorld
            {| cfg := sampleConfig; state := Some (mkTrafficState 0 1000 false);
               child := None; restartChan := makeChan 1; lastScrapeTotal := 1000 |}
            [Log "[INFO] No previous state found, starting fresh traffic period";
             SaveState (Some (mkTrafficState 0 0 false));
             SaveState (Some (mkTrafficState 0 1000 false))]))
  = Some (mkTrafficState 0 1000 false).
Proof.
  apply (state_file_follows_ledger parseDecimal sampleConfig NotExist 0
           [Tick 10 (uploadedBody "1000")] AtLoopTop
           (mkWorld
              {| cfg := sampleConfig; state := Some (mkTrafficState 0 0 false);
                 child := None; restartChan := makeChan 1; lastScrapeTotal := 0 |}
              [Log "[INFO] No previous state found, starting fresh traffic period";
               SaveState (Some (mkTrafficState 0 0 false))])).
  - reflexivity.
  - vm_compute. reflexivity.
Defined.



(** ** What a tick does *)

Lemma scrape_in_range (PF : string -> option float) (resp : HttpResult) (total : Z) :
  scrapeBytesUsed PF resp = Some total -> Int64.in_range total.
Proof.
  destruct resp as [|status body]; simpl; [discriminate|].
  destruct (negb (status =? 200)); [discriminate|].
  destruct body as [b|]; [|discriminate].
  destruct (scanBody PF b). intros H. injection H as <-. apply wrap_range.
Qed.

(** X10: A tick raises a restart request exactly when it changes the mode:
    when it throttles a ledger that was not throttled, or rolls over a
    period that was.  A tick that leaves [isThrottled] as it was leaves
    the restart channel as it was, also when it rolls the period over in
    NORMAL mode. *)
Theorem tick_restarts_iff_mode_changes (PF : string -> option float) (now : Time)
    (resp : HttpResult) (w : World) (st : TrafficState) :
  state (sup w) = Some st ->
  exists w' st',
    checkTraffic PF now resp w = Done tt w' /\
    state (sup w') = Some st' /\
    restartChan (sup w')
    = (if Bool.eqb (IsThrottled st') (IsThrottled st) then restartChan (sup w)
       else trySend (restartChan (sup w))).
Proof.
  intros Hst.
  destruct (Z_lt_le_dec (PeriodStartTime st + periodDuration (cfg (sup w))) now)
    as [Hlt | Hle].
  - rewrite (checkTraffic_expired PF now resp w st Hst Hlt).
    do 2 eexists. split; [reflexivity|]. split; [reflexivity|]. simpl.
    destruct (IsThrottled st); reflexivity.
  - rewrite (checkTraffic_running PF now resp w st Hst Hle).
    destruct (scrapeBytesUsed PF resp) as [total|].
    + rewrite (updateUsage_spec w st total Hst). cbv zeta.
      do 2 eexists. split; [reflexivity|]. split; [reflexivity|]. simpl.
      unfold crosses. destruct (IsThrottled st); simpl; [reflexivity|].
      destruct (thresholdBytes _ <=? _); reflexivity.
    + exists w, st. split; [reflexivity|]. split; [exact Hst|].
      rewrite Bool.eqb_reflx. reflexivity.
Qed.

Lemma tick_restarts_iff_mode_changes_witness :
  exists w' st',
    checkTraffic parseDecimal 604800000000001 HttpFail throttledWorld = Done tt w' /\
    state (sup w') = Some st' /\
    restartChan (sup w')
    = (if Bool.eqb (IsThrottled st') true then makeChan 1 else trySend (makeChan 1)).
Proof.
  exact (tick_restarts_iff_mode_changes parseDecimal 604800000000001 HttpFail
           throttledWorld (mkTrafficState 0 1000 true) eq_refl).
Defined.



(** X12: The scrape fails exactly on a transport failure, a status other
    than 200 or a body that cannot be read, and a tick whose scrape fails
    within the period leaves the supervisor and its trace exactly as they
    were: nothing is accounted, written or logged. *)
Theorem failed_scrape_skips_tick (PF : string -> option float) (now : Time)
    (resp : HttpResult) (w : World) (st : TrafficState) :
  state (sup w) = Some st ->
  now <= PeriodStartTime st + periodDuration (cfg (sup w)) ->
  (scrapeBytesUsed PF resp = None <->
   resp = HttpFail
   \/ exists status body, resp = HttpResponse status body
                           /\ (status <> 200 \/ body = None)) /\
  (scrapeBytesUsed PF resp = None -> checkTraffic PF now resp w = Done tt w).
Proof.
  intros Hst Hnow. split.
  - destruct resp as [|status body]; simpl.
    + split; [intros _; left; reflexivity|reflexivity].
    + destruct (Z.eqb_spec status 200) as [E|E]; simpl.
      * destruct body as [b|].
        -- destruct (scanBody PF b). split; [discriminate|].
           intros [H | (s0 & b0 & H & [Hs | Hb])]; try discriminate.
           ++ injection H as <- _. contradiction.
           ++ injection H as _ <-. discriminate.
        -- split; [|reflexivity]. intros _. right. exists status, None.
           split; [reflexivity|right; reflexivity].
      * split; [|reflexivity]. intros _. right. exists status, body.
        split; [reflexivity|left; exact E].
  - intros Hfail. rewrite (checkTraffic_running PF now resp w st Hst Hnow), Hfail.
    reflexivity.
Qed.

Lemma failed_scrape_skips_tick_witness :
  checkTraffic parseDecimal 10 (HttpResponse 503 (Some "conduit_bytes_uploaded 9"))
    throttledWorld
  = Done tt throttledWorld.
Proof.
  destruct (failed_scrape_skips_tick parseDecimal 10
              (HttpResponse 503 (Some "conduit_bytes_uploaded 9")) throttledWorld
              (mkTrafficState 0 1000 true) eq_refl) as [_ Hskip].
  - vm_compute. discriminate.
  - apply Hskip. reflexivity.
Defined.

(** ** From a mode change to the relaunch *)

Lemma run_cons (PF : string -> option float) (ev : Event) (evs : list Event)
    (ph ph1 : Phase) (w w1 : World) :
  step PF ev ph w = Some (Done ph1 w1) ->
  run PF (ev :: evs) ph w = run PF evs ph1 w1.
Proof. intros H. cbn [run]. rewrite H. reflexivity. Qed.

Lemma restart_relaunch (PF : string -> option float) (env : ChildEnv) (w : World)
    (st : TrafficState) (cmd : Cmd) :
  state (sup w) = Some st ->
  child (sup w) = Some cmd ->
  cmdProcess cmd = true ->
  restartChan (sup w) = mkChan 1 [tt] ->
  exists w' tr,
    run PF [RestartRequested env; Iterate None true] Waiting w = Some (Done Waiting w') /\
    out w' = out w ++ tr /\
    launches tr = [launchArgs PF (cfg (sup w)) (IsThrottled st)] /\
    In (SendSignal SIGTERM) tr /\
    state (sup w') = Some st /\
    chanBuf (restartChan (sup w')) = [].
Proof.
  intros Hst Hc Hp Hch. destruct w as [[c s ch rc last] o]. simpl in Hst, Hc, Hp, Hch.
  subst s ch rc.
  cbn [run step sup restartChan recv chanBuf chanCap].
  unfold onRestart. run_monad.
  erewrite shutdownChild_started; [|reflexivity|exact Hp]. cbn [sup out].
  rewrite step_iterate. erewrite loopTop_launch; [|reflexivity]. cbv zeta.
  do 2 eexists. split; [reflexivity|]. cbn [out sup state cfg restartChan chanBuf].
  split; [rewrite <- !app_assoc; reflexivity|].
  split.
  { rewrite !launches_app, shutdown_trace_no_launch. reflexivity. }
  split; [|split; reflexivity].
  apply in_or_app. right. apply in_or_app. left.
  destruct (race env); left; reflexivity.
Qed.

(** X13: Crossing the threshold leads to a throttled worker: when a tick
    accounts a delta that brings an unthrottled ledger to the threshold,
    the main loop finds the restart request, stops the running child
    (SIGTERM first) and launches conduit again with the throttled
    arguments, the request being used up. *)
Theorem crossing_threshold_relaunches_throttled (PF : string -> option float)
    (w : World) (st : TrafficState) (now : Time) (resp : HttpResult) (total : Z)
    (env : ChildEnv) :
  inv Waiting w ->
  state (sup w) = Some st ->
  IsThrottled st = false ->
  chanBuf (restartChan (sup w)) = [] ->
  now <= PeriodStartTime st + periodDuration (cfg (sup w)) ->
  scrapeBytesUsed PF resp = Some total ->
  0 <= total ->
  0 <= lastScrapeTotal (sup w) <= Int64.max_int ->
  Int64.in_range (BytesUsed st) ->
  thresholdBytes (cfg (sup w))
  <= BytesUsed st + (if total - lastScrapeTotal (sup w) <? 0 then total
                     else total - lastScrapeTotal (sup w))
  <= Int64.max_int ->
  exists w' st' tr,
    run PF [Tick now resp; RestartRequested env; Iterate None true] Waiting w
    = Some (Done Waiting w') /\
    state (sup w') = Some st' /\
    IsThrottled st' = true /\
    out w' = out w ++ tr /\
    launches tr = [launchArgs PF (cfg (sup w)) true] /\
    In (SendSignal SIGTERM) tr /\
    chanBuf (restartChan (sup w')) = [].
Proof.
  intros (_ & [Hcap _] & Hchild) Hst Hth Hbuf Hnow Hscrape Hpos Hlast Hbu Hcross.
  destruct (Hchild eq_refl) as (cmd & Hc & Hp).
  pose proof (scrape_in_range PF resp total Hscrape) as Hrange.
  destruct (usageDelta_counters (lastScrapeTotal (sup w)) total) as [Hd Hdpos];
    [unfold Int64.in_range, Int64.min_int, Int64.max_int in *; lia|exact Hlast|].
  assert (Hacc : accounted st (usageDelta (lastScrapeTotal (sup w)) total)
                 = BytesUsed st + usageDelta (lastScrapeTotal (sup w)) total).
  { rewrite (accounted_add st _ Hbu Hdpos). unfold Int64.add. apply wrap_id.
    rewrite Hd. unfold Int64.in_range, Int64.min_int, Int64.max_int in *. lia. }
  assert (Hflip : crosses (cfg (sup w)) st
                    (accounted st (usageDelta (lastScrapeTotal (sup w)) total)) = true).
  { unfold crosses. rewrite Hth, Hacc, Hd. simpl. apply Z.leb_le. lia. }
  set (st1 := mkTrafficState (PeriodStartTime st)
                (accounted st (usageDelta (lastScrapeTotal (sup w)) total)) true).
  set (tr1 := (if 0 <? usageDelta (lastScrapeTotal (sup w)) total
               then [SaveState (Some (mkTrafficState (PeriodStartTime st)
                                        (BytesUsed st1) false))]
               else [])
              ++ [throttleLog (cfg (sup w)); SaveState (Some st1)]).
  set (w1 := mkWorld
               {| cfg := cfg (sup w); state := Some st1; child := child (sup w);
                  restartChan := trySend (restartChan (sup w));
                  lastScrapeTotal := total |}
               (out w ++ tr1)).
  assert (Htick : step PF (Tick now resp) Waiting w = Some (Done Waiting w1)).
  { change (step PF (Tick now resp) Waiting w)
      with (Some ((checkTraffic PF now resp ;;; ret Waiting) w)).
    unfold bind. rewrite (checkTraffic_running PF now resp w st Hst Hnow), Hscrape.
    rewrite (updateUsage_spec w st total Hst). cbv zeta. rewrite Hflip, Hth.
    reflexivity. }
  destruct (restart_relaunch PF env w1 st1 cmd eq_refl Hc Hp)
    as (w' & tr & Hrun & Hout & Hl & Hin & Hst' & Hempty).
  { apply trySend_empty; assumption. }
  exists w', st1, (tr1 ++ tr).
  split; [rewrite (run_cons PF _ _ _ _ _ _ Htick); exact Hrun|].
  split; [exact Hst'|]. split; [reflexivity|].
  split; [rewrite Hout; unfold w1; cbn [out]; rewrite <- app_assoc; reflexivity|].
  split.
  - rewrite launches_app, Hl. unfold tr1. destruct (0 <? _); reflexivity.
  - split; [apply in_or_app; right; exact Hin|exact Hempty].
Qed.

Lemma crossing_threshold_relaunches_throttled_witness :
  exists w' st' tr,
    run parseDecimal
      [Tick 10 (uploadedBody "214749364");
       RestartRequested (mkChildEnv (Some 1000000) 0 false); Iterate None true]
      Waiting nearThreshold
    = Some (Done Waiting w') /\
    state (sup w') = Some st' /\
    IsThrottled st' = true /\
    out w' = out nearThreshold ++ tr /\
    launches tr = [launchArgs parseDecimal sampleConfig true] /\
    In (SendSignal SIGTERM) tr /\
    chanBuf (restartChan (sup w')) = [].
Proof.
  apply (crossing_threshold_relaunches_throttled parseDecimal nearThreshold
           (mkTrafficState 0 85791971737 false) 10 (uploadedBody "214749364") 214749364).
  - unfold inv, chanOk. simpl. repeat split; try discriminate; try lia.
    intros _. eexists. split; reflexivity.
  - reflexivity.
  - reflexivity.
  - reflexivity.
  - vm_compute. discriminate.
  - vm_compute. reflexivity.
  - lia.
  - unfold Int64.max_int. simpl. lia.
  - unfold Int64.in_range, Int64.min_int, Int64.max_int. simpl. lia.
  - split; vm_compute; discriminate.
Defined.

(** X14: The end of a throttled period leads back to full capacity: the
    tick that rolls the period over resets the ledger and raises a
    restart request, and the main loop stops the throttled child and
    launches conduit with the operator's own arguments. *)
Theorem rollover_relaunches_unthrottled (PF : string -> option float)
    (w : World) (st : TrafficState) (now : Time) (resp : HttpResult) (env : ChildEnv) :
  inv Waiting w ->
  state (sup w) = Some st ->
  IsThrottled st = true ->
  chanBuf (restartChan (sup w)) = [] ->
  PeriodStartTime st + periodDuration (cfg (sup w)) < now ->
  exists w' tr,
    run PF [Tick now resp; RestartRequested env; Iterate None true] Waiting w
    = Some (Done Waiting w') /\
    state (sup w') = Some (mkTrafficState now 0 false) /\
    out w' = out w ++ tr /\
    launches tr = [ConduitArgs (cfg (sup w))] /\
    In (SendSignal SIGTERM) tr /\
    chanBuf (restartChan (sup w')) = [].
Proof.
  intros (_ & [Hcap _] & Hchild) Hst Hth Hbuf Hexp.
  destruct (Hchild eq_refl) as (cmd & Hc & Hp).
  set (st1 := mkTrafficState now 0 false).
  set (w1 := mkWorld
               {| cfg := cfg (sup w); state := Some st1; child := child (sup w);
                  restartChan := trySend (restartChan (sup w));
                  lastScrapeTotal := 0 |}
               (out w ++ [resetLog; SaveState (Some st1)])).
  assert (Htick : step PF (Tick now resp) Waiting w = Some (Done Waiting w1)).
  { change (step PF (Tick now resp) Waiting w)
      with (Some ((checkTraffic PF now resp ;;; ret Waiting) w)).
    unfold bind. rewrite (checkTraffic_expired PF now resp w st Hst Hexp), Hth.
    reflexivity. }
  destruct (restart_relaunch PF env w1 st1 cmd eq_refl Hc Hp)
    as (w' & tr & Hrun & Hout & Hl & Hin & Hst' & Hempty).
  { apply trySend_empty; assumption. }
  exists w', ([resetLog; SaveState (Some st1)] ++ tr).
  split; [rewrite (run_cons PF _ _ _ _ _ _ Htick); exact Hrun|].
  split; [exact Hst'|].
  split; [rewrite Hout; unfold w1; cbn [out]; rewrite <- app_assoc; reflexivity|].
  split; [rewrite launches_app, Hl; reflexivity|].
  split; [apply in_or_app; right; exact Hin|exact Hempty].
Qed.

Lemma rollover_relaunches_unthrottled_witness :
  exists w' tr,
    run parseDecimal
      [Tick 604800000000001 HttpFail;
       RestartRequested (mkChildEnv None 20000000 false); Iterate None true]
      Waiting throttledWorld
    = Some (Done Waiting w') /\
    state (sup w') = Some (mkTrafficState 604800000000001 0 false) /\
    out w' = out throttledWorld ++ tr /\
    launches tr = [ConduitArgs sampleConfig] /\
    In (SendSignal SIGTERM) tr /\
    chanBuf (restartChan (sup w')) = [].
Proof.
  apply (rollover_relaunches_unthrottled parseDecimal throttledWorld
           (mkTrafficState 0 1000 true)).
  - unfold inv, chanOk. simpl. repeat split; try discriminate; try lia.
    intros _. eexists. split; reflexivity.
  - reflexivity.
  - reflexivity.
  - reflexivity.
  - vm_compute. reflexivity.
Defined.

(** ** The length of the period *)

Lemma periodDuration_wraps (c : Config) :
  106752 <= TrafficPeriodDays c <= 213503 ->
  periodDuration c = TrafficPeriodDays c * 24 * Hour - 2 ^ 64 /\ periodDuration c < 0.
Proof.
  intros Hd. unfold periodDuration, Int64.mul, Hour, Second.
  rewrite (wrap_id (TrafficPeriodDays c * 24))
    by (unfold Int64.in_range, Int64.min_int, Int64.max_int; lia).
  unfold Int64.wrap.
  replace (TrafficPeriodDays c * 24 * (3600 * 1000000000) + 2 ^ 63)
    with (TrafficPeriodDays c * 24 * (3600 * 1000000000) - 2 ^ 63 + 1 * 2 ^ 64) by lia.
  rewrite Z.mod_add by lia. rewrite Z.mod_small by lia. lia.
Qed.

(** X15: [validateConfig] bounds the period from below only, and the period
    in nanoseconds is a 64-bit product: for 106752 to 213503 days it wraps
    to a negative duration, and then every tick at or after [periodStart]
    takes the period for ended and resets the ledger, so that no usage is
    ever accumulated. *)
Theorem overlong_period_resets_every_tick (PF : string -> option float)
    (w : World) (st : TrafficState) (now : Time) (resp : HttpResult) :
  state (sup w) = Some st ->
  106752 <= TrafficPeriodDays (cfg (sup w)) <= 213503 ->
  PeriodStartTime st <= now ->
  (TrafficPeriodDays (cfg (sup w)) <? MinTrafficPeriodDays) = false /\
  periodDuration (cfg (sup w)) < 0 /\
  exists w',
    checkTraffic PF now resp w = Done tt w' /\
    state (sup w') = Some (mkTrafficState now 0 false) /\
    lastScrapeTotal (sup w') = 0.
Proof.
  intros Hst Hdays Hnow.
  destruct (periodDuration_wraps _ Hdays) as [_ Hneg].
  split; [apply Z.ltb_ge; unfold MinTrafficPeriodDays; lia|].
  split; [exact Hneg|].
  rewrite (checkTraffic_expired PF now resp w st Hst) by lia.
  eexists. split; [reflexivity|]. split; reflexivity.
Qed.

Lemma overlong_period_resets_every_tick_witness :
  validateConfig (mkConfig 100 106752 80 10 10 "./data" "127.0.0.1:9090" ["start"]) = None /\
  exists w',
    checkTraffic parseDecimal 10 (uploadedBody "1000")
      (mkWorld
         {| cfg := mkConfig 100 106752 80 10 10 "./data" "127.0.0.1:9090" ["start"];
            state := Some (mkTrafficState 0 500 false);
            child := None; restartChan := makeChan 1; lastScrapeTotal := 500 |}
         []) = Done tt w' /\
    state (sup w') = Some (mkTrafficState 10 0 false) /\
    lastScrapeTotal (sup w') = 0.
Proof.
  split; [vm_compute; reflexivity|].
  refine (proj2 (proj2 (overlong_period_resets_every_tick parseDecimal
                          (mkWorld
                             {| cfg := mkConfig 100 106752 80 10 10 "./data"
                                         "127.0.0.1:9090" ["start"];
                                state := Some (mkTrafficState 0 500 false);
                                child := None; restartChan := makeChan 1;
                                lastScrapeTotal := 500 |}
                             [])
                          (mkTrafficState 0 500 false) 10 (uploadedBody "1000")
                          eq_refl _ _))).
  - simpl. lia.
  - simpl. lia.
Defined.

(** X16: With a configuration that [validateConfig] accepts and a period of
    at most 106751 days, no tick within the first seven days of a period
    rolls it over: the ledger keeps its [periodStart] and is not reset. *)
Theorem validated_period_lasts_a_week (PF : string -> option float)
    (w : World) (st : TrafficState) (now : Time) (resp : HttpResult) :
  state (sup w) = Some st ->
  validateConfig (cfg (sup w)) = None ->
  TrafficPeriodDays (cfg (sup w)) <= 106751 ->
  now <= PeriodStartTime st + 7 * 24 * Hour ->
  exists w' st' tr,
    checkTraffic PF now resp w = Done tt w' /\
    state (sup w') = Some st' /\
    PeriodStartTime st' = PeriodStartTime st /\
    out w' = out w ++ tr /\
    ~ In resetLog tr.
Proof.
  intros Hst Hvalid Hmax Hnow.
  assert (Hmin : 7 <= TrafficPeriodDays (cfg (sup w))).
  { unfold validateConfig, MinTrafficPeriodDays in Hvalid.
    destruct (TrafficPeriodDays (cfg (sup w)) <? 7) eqn:E; [discriminate|].
    apply Z.ltb_ge in E. exact E. }
  assert (Hrun : now <= PeriodStartTime st + periodDuration (cfg (sup w))).
  { rewrite periodDuration_days by lia. unfold Hour, Second in *. lia. }
  rewrite (checkTraffic_running PF now resp w st Hst Hrun).
  destruct (scrapeBytesUsed PF resp) as [total|].
  - rewrite (updateUsage_spec w st total Hst). cbv zeta.
    do 3 eexists. split; [reflexivity|]. split; [reflexivity|].
    split; [reflexivity|]. split; [reflexivity|].
    pose proof (throttleLog_not_reset (cfg (sup w))) as Hne.
    intros Hin. apply in_app_or in Hin. destruct Hin as [Hin | Hin].
    + destruct (0 <? _); simpl in Hin; [|exact Hin].
      destruct Hin as [Hin | []]. discriminate Hin.
    + destruct (crosses _ _ _); simpl in Hin; [|exact Hin].
      destruct Hin as [Hin | [Hin | []]]; [exact (Hne Hin)|discriminate Hin].
  - exists w, st, []. rewrite app_nil_r. repeat split; try assumption. intros [].
Qed.

Lemma validated_period_lasts_a_week_witness :
  exists w' st' tr,
    checkTraffic parseDecimal 604800000000000 (uploadedBody "1100")
      (sampleWorld (mkTrafficState 0 5000 false) 1000) = Done tt w' /\
    state (sup w') = Some st' /\
    PeriodStartTime st' = 0 /\
    out w' = [] ++ tr /\
    ~ In resetLog tr.
Proof.
  apply (validated_period_lasts_a_week parseDecimal
           (sampleWorld (mkTrafficState 0 5000 false) 1000)
           (mkTrafficState 0 5000 false) 604800000000000 (uploadedBody "1100")).
  - reflexivity.
  - vm_compute. reflexivity.
  - simpl. lia.
  - vm_compute. discriminate.
Defined.

(** ** Scanning line by line *)

Lemma SplitLines_nonempty (s : string) : SplitLines s <> [].
Proof.
  induction s as [|c r IH]; simpl; [discriminate|].
  destruct (Ascii.eqb c newline); [discriminate|].
  destruct (SplitLines r); discriminate.
Qed.

Lemma SplitLines_app (s1 s2 : string) :
  SplitLines (String.append s1 (String newline s2)) = SplitLines s1 ++ SplitLines s2.
Proof.
  induction s1 as [|c r IH].
  - reflexivity.
  - cbn [String.append SplitLines]. rewrite IH.
    destruct (Ascii.eqb c newline); [reflexivity|].
    pose proof (SplitLines_nonempty r) as Hne.
    destruct (SplitLines r) as [|l ls]; [contradiction|]. reflexivity.
Qed.

Lemma SplitLines_single (s : string) : hasNewline s = false -> SplitLines s = [s].
Proof.
  induction s as [|c r IH]; [reflexivity|].
  cbn [hasNewline SplitLines]. intros H. apply orb_false_iff in H.
  destruct H as [Hc Hr]. rewrite Hc, (IH Hr). reflexivity.
Qed.

(** X17: Scanning goes line by line and a later line overrides an earlier
    one: the counters of a body extended by one more line are those of
    the body updated by that line, so a well-formed upload line at the
    end sets the upload counter whatever the body held for it before,
    and keeps the download counter. *)
Theorem scan_last_line_wins (PF : string -> option float) (body line : string) :
  hasNewline line = false ->
  scanBody PF (String.append body (String newline line))
  = scanLine PF (scanBody PF body) line /\
  (forall v val,
     HasPrefix line "conduit_bytes_uploaded " = true ->
     nth_error (Fields line) 1 = Some v ->
     PF v = Some val ->
     scrapeBytesUsed PF (HttpResponse 200 (Some (String.append body (String newline line))))
     = Some (Int64.add (Float64.to_int64 val) (snd (scanBody PF body)))).
Proof.
  intros Hnl.
  assert (Hscan : scanBody PF (String.append body (String newline line))
                  = scanLine PF (scanBody PF body) line).
  { unfold scanBody. rewrite SplitLines_app, fold_left_app, (SplitLines_single line Hnl).
    reflexivity. }
  split; [exact Hscan|].
  intros v val Hpre Hv Hval. simpl. rewrite Hscan.
  destruct (scanBody PF body) as [up down].
  assert (Hline : scanLine PF (up, down) line = (Float64.to_int64 val, down)).
  { unfold scanLine. rewrite Hpre.
    destruct (prefix_split _ _ Hpre) as [r Hr].
    assert (Hhash : HasPrefix line "#" = false) by (rewrite Hr; reflexivity).
    assert (Hdown : HasPrefix line "conduit_bytes_downloaded " = false)
      by (rewrite Hr; reflexivity).
    rewrite Hhash, Hdown. unfold parseCounter.
    destruct (Fields line) as [|name [|v' rest]]; try discriminate.
    simpl in Hv. injection Hv as ->. rewrite Hval. reflexivity. }
  rewrite Hline. reflexivity.
Qed.

Lemma scan_last_line_wins_witness :
  scrapeBytesUsed parseDecimal
    (HttpResponse 200
       (Some (String.append sampleBody (String newline "conduit_bytes_uploaded 7"))))
  = Some (Int64.add (Float64.to_int64 7) 234).
Proof.
  destruct (scan_last_line_wins parseDecimal sampleBody "conduit_bytes_uploaded 7" eq_refl)
    as [_ Hwins].
  rewrite (Hwins "7" 7%float); [| reflexivity | reflexivity | vm_compute; reflexivity].
  vm_compute. reflexivity.
Defined.

(** ** Validation and floating point *)

(** X18: [validateConfig] does not reject a min-bandwidth that is not a
    number: the comparison [MinBandwidthMbps <= 0] is false for NaN, so a
    configuration that is otherwise in range is accepted, and the
    throttled launch then hands conduit [--bandwidth NaN]. *)
Theorem nan_bandwidth_passes_validation (PF : string -> option float) (c : Config) :
  MinTrafficPeriodDays <= TrafficPeriodDays c ->
  PrimFloat.ltb (TrafficLimitGB c) 100 = false ->
  MinThresholdPercent <= BandwidthThresholdPercent c <= MaxThresholdPercent ->
  0 < MinConnections c ->
  MinBandwidthMbps c = PrimFloat.nan ->
  validateConfig c = None /\
  exists kept,
    launchArgs PF c true
    = kept ++ ["--max-clients"; Fmt.Sprintf_d (MinConnections c); "--bandwidth"; "NaN"].
Proof.
  intros Hdays Hlimit Hpct Hconn Hbw. split.
  - unfold validateConfig.
    change (Float64.of_int64 MinTrafficLimitGB) with 100%float.
    replace (TrafficPeriodDays c <? MinTrafficPeriodDays) with false
      by (symmetry; apply Z.ltb_ge; lia).
    rewrite Hlimit.
    replace (BandwidthThresholdPercent c <? MinThresholdPercent) with false
      by (symmetry; apply Z.ltb_ge; lia).
    replace (MaxThresholdPercent <? BandwidthThresholdPercent c) with false
      by (symmetry; apply Z.ltb_ge; lia).
    replace (MinConnections c <=? 0) with false by (symmetry; apply Z.leb_gt; lia).
    rewrite Hbw. reflexivity.
  - exists (filterArgs PF (filterArgs PF (ConduitArgs c) "--max-clients" "-m")
                       "--bandwidth" "-b").
    unfold launchArgs. rewrite Hbw, <- app_assoc.
    change (Fmt.Sprintf_0f PrimFloat.nan) with "NaN". reflexivity.
Qed.

Lemma nan_bandwidth_passes_validation_witness :
  validateConfig (mkConfig 100 7 80 10 PrimFloat.nan "./data" "127.0.0.1:9090" ["start"])
  = None /\
  exists kept,
    launchArgs parseDecimal
      (mkConfig 100 7 80 10 PrimFloat.nan "./data" "127.0.0.1:9090" ["start"]) true
    = kept ++ ["--max-clients"; Fmt.Sprintf_d 10; "--bandwidth"; "NaN"].
Proof.
  apply (nan_bandwidth_passes_validation parseDecimal
           (mkConfig 100 7 80 10 PrimFloat.nan "./data" "127.0.0.1:9090" ["start"])).
  - unfold MinTrafficPeriodDays. simpl. lia.
  - vm_compute. reflexivity.
  - unfold MinThresholdPercent, MaxThresholdPercent. simpl. lia.
  - simpl. lia.
  - reflexivity.
Defined.

(** ** Stopping, in every state *)

(** X19: [shutdownChild] never changes the supervisor and never fails.
    Without a started process it sends no signal at all.  It sends
    SIGKILL only after SIGTERM and after the 5-second timer has fired,
    and the exit it waits for is observed no later than 5 seconds plus
    the time the process takes to die of SIGKILL. *)
Theorem shutdownChild_bounded (env : ChildEnv) (w : World) :
  exists tr,
    shutdownChild env w = Done tt (mkWorld (sup w) (out w ++ tr)) /\
    (forall t, In (ExitObserved t) tr -> t <= gracePeriod + Z.max 0 (killLatency env)) /\
    (In (SendSignal SIGKILL) tr ->
     exists pre post,
       tr = pre ++ SendSignal SIGKILL :: post
       /\ In (SendSignal SIGTERM) pre /\ In (TimerFired gracePeriod) pre) /\
    (child (sup w) = None \/ (exists c, child (sup w) = Some c /\ cmdProcess c = false) ->
     tr = [DrainExit]).
Proof.
  assert (Hdrain : exists tr,
            Done (A := unit) tt (mkWorld (sup w) (out w ++ [DrainExit]))
            = Done tt (mkWorld (sup w) (out w ++ tr)) /\
            (forall t, In (ExitObserved t) tr ->
                       t <= gracePeriod + Z.max 0 (killLatency env)) /\
            (In (SendSignal SIGKILL) tr ->
             exists pre post,
               tr = pre ++ SendSignal SIGKILL :: post
               /\ In (SendSignal SIGTERM) pre /\ In (TimerFired gracePeriod) pre) /\
            (child (sup w) = None
             \/ (exists c, child (sup w) = Some c /\ cmdProcess c = false) ->
             tr = [DrainExit])).
  { exists [DrainExit]. split; [reflexivity|].
    split; [intros t [H | []]; discriminate H|].
    split; [intros [H | []]; discriminate H|reflexivity]. }
  destruct (child (sup w)) as [c|] eqn:Ec.
  - destruct (cmdProcess c) eqn:Ep.
    + rewrite (shutdownChild_started env w c Ec Ep).
      assert (Hstarted : ~ (None = Some c
                            \/ exists c0, Some c = Some c0 /\ cmdProcess c0 = false)).
      { intros [H | (c0 & H & Hp)]; [discriminate|]. injection H as <-. congruence. }
      destruct (race env) as [t|] eqn:Er.
      * exists [SendSignal SIGTERM; ExitObserved t; gracefulLog].
        split; [reflexivity|]. split.
        { intros t' [H | [H | [H | []]]]; try discriminate H. injection H as <-.
          unfold race in Er. destruct (termExit env) as [t0|]; [|discriminate].
          destruct ((t0 <? gracePeriod) || ((t0 =? gracePeriod) && negb (timerWinsTie env)))
            eqn:E; [|discriminate].
          injection Er as <-. apply orb_true_iff in E. destruct E as [E | E].
          - apply Z.ltb_lt in E. lia.
          - apply andb_true_iff in E. destruct E as [E _]. apply Z.eqb_eq in E. lia. }
        split; [|intros H; exfalso; apply Hstarted; destruct H as [H | H];
                 [left; discriminate H|right; exact H]].
        unfold gracefulLog. intros [H | [H | [H | []]]]; discriminate H.
      * exists [SendSignal SIGTERM; TimerFired gracePeriod; killLog; SendSignal SIGKILL;
                ExitObserved (exitAfterKill env gracePeriod)].
        split; [reflexivity|]. split.
        { unfold killLog.
          intros t' [H | [H | [H | [H | [H | []]]]]]; try discriminate H.
          injection H as <-. unfold exitAfterKill.
          destruct (termExit env); lia. }
        split; [|intros H; exfalso; apply Hstarted; destruct H as [H | H];
                 [left; discriminate H|right; exact H]].
        intros _. exists [SendSignal SIGTERM; TimerFired gracePeriod; killLog],
                         [ExitObserved (exitAfterKill env gracePeriod)].
        split; [reflexivity|]. split; simpl; tauto.
    + assert (Hrun : shutdownChild env w = Done tt (mkWorld (sup w) (out w ++ [DrainExit])))
        by (unfold shutdownChild; run_monad; rewrite Ec, Ep; reflexivity).
      rewrite Hrun. exact Hdrain.
  - assert (Hrun : shutdownChild env w = Done tt (mkWorld (sup w) (out w ++ [DrainExit])))
      by (unfold shutdownChild; run_monad; rewrite Ec; reflexivity).
    rewrite Hrun. exact Hdrain.
Qed.

Lemma shutdownChild_bounded_witness :
  exists tr,
    shutdownChild (mkChildEnv None 20000000 false) throttledWorld
    = Done tt (mkWorld (sup throttledWorld) (out throttledWorld ++ tr)) /\
    (forall t, In (ExitObserved t) tr -> t <= gracePeriod + Z.max 0 20000000) /\
    (In (SendSignal SIGKILL) tr ->
     exists pre post,
       tr = pre ++ SendSignal SIGKILL :: post
       /\ In (SendSignal SIGTERM) pre /\ In (TimerFired gracePeriod) pre) /\
    (child (sup throttledWorld) = None
     \/ (exists c, child (sup throttledWorld) = Some c /\ cmdProcess c = false) ->
     tr = [DrainExit]).
Proof.
  exact (shutdownChild_bounded (mkChildEnv None 20000000 false) throttledWorld).
Defined.

(** ** Flags for both programs *)

Lemma shared_dash (a : string) :
  isShared a = true -> HasPrefix a "-" = true /\ isMonitorOnly a = false.
Proof.
  unfold isShared, isDataDirFlag, isMetricsAddrFlag. intros H.
  repeat (apply orb_true_iff in H; destruct H as [H | H]);
    try (apply String.eqb_eq in H; subst a; split; reflexivity);
    destruct (prefix_split _ _ H) as [r ->]; split; reflexivity.
Qed.

Lemma splitRec_shared (PF : string -> option float) (a : string) :
  isShared a = true -> PF a = None ->
  forall n args m c,
    (List.length args <= n)%nat ->
    In a c \/ In a args -> In a (snd (splitRec PF args m c)).
Proof.
  intros Hsh Hpf. destruct (shared_dash a Hsh) as [Hdash Hmon].
  assert (Hval : looksLikeValue PF a = false).
  { unfold looksLikeValue. rewrite Hdash, Hpf. reflexivity. }
  assert (Hnsep : String.eqb a "--" = false).
  { destruct (String.eqb_spec a "--") as [-> |]; [discriminate Hsh|reflexivity]. }
  assert (Hnstart : a <> "start") by (intros ->; discriminate Hsh).
  induction n as [|n IH]; intros args m c Hlen Hin.
  - destruct args; [|simpl in Hlen; lia]. destruct Hin as [Hin | []]. exact Hin.
  - destruct args as [|arg rest]; [destruct Hin as [Hin | []]; exact Hin|].
    destruct (String.eqb arg "--") eqn:Hsep.
    + cbn [splitRec]. rewrite Hsep. cbn [snd]. apply in_or_app.
      destruct Hin as [Hin | [<- | Hin]]; [left; exact Hin|congruence|].
      right. unfold afterSeparator. destruct rest as [|first rest']; [exact Hin|].
      destruct (String.eqb_spec first "start") as [-> |]; [|exact Hin].
      destruct Hin as [<- | Hin]; [contradiction|exact Hin].
    + destruct (splitRec_step PF arg rest Hsep)
        as (used & rest' & dm & dc & Heq & Hused & Hdm & Hboth & _ & Hoth & Hrec).
      assert (Hlen' : (List.length rest' <= n)%nat).
      { simpl in Hlen.
        pose proof (used_length _ arg rest used rest' Heq) as Hl.
        assert (Hu : used = [arg] \/ exists next, used = [arg; next]).
        { destruct Hused as [-> | (next & -> & _)]; [left|right; exists next];
            reflexivity. }
        specialize (Hl Hu). lia. }
      rewrite Hrec. apply (IH rest' (m ++ dm) (c ++ dc) Hlen').
      destruct Hin as [Hin | Hin]; [left; apply in_or_app; left; exact Hin|].
      rewrite Heq in Hin. apply in_app_or in Hin.
      destruct Hin as [Hin | Hin]; [|right; exact Hin].
      left. apply in_or_app. right.
      destruct Hused as [-> | (next & -> & Hv)].
      * destruct Hin as [<- | []]. rewrite (Hoth Hmon). left. reflexivity.
      * destruct Hin as [<- | [<- | []]].
        -- rewrite (Hoth Hmon). left. reflexivity.
        -- congruence.
Qed.

(** X5: Conduit always receives the flags it shares with the monitor: a
    [--data-dir], [-d] or [--metrics-addr] argument on the command line,
    with or without [=value], is among the arguments handed to conduit,
    wherever it stands, given that [ParseFloat] does not take the flag
    for a number. *)
Theorem splitArgs_shared_reach_conduit (PF : string -> option float)
    (args : list string) (a : string) :
  isShared a = true ->
  PF a = None ->
  In a args ->
  In a (snd (splitArgs PF args)).
Proof.
  intros Hsh Hpf Hin. rewrite splitArgs_rec.
  apply (splitRec_shared PF a Hsh Hpf (List.length args)); [lia|right; exact Hin].
Qed.

Lemma splitArgs_shared_reach_conduit_witness :
  In "--data-dir=/srv"
     (snd (splitArgs parseDecimal ["--traffic-limit"; "100"; "--data-dir=/srv"; "-v"])).
Proof.
  apply (splitArgs_shared_reach_conduit parseDecimal).
  - reflexivity.
  - reflexivity.
  - simpl. tauto.
Defined.

(** ** What conduit is launched with *)

Lemma tick_no_launch (PF : string -> option float) (now : Time) (resp : HttpResult)
    (w w' : World) :
  checkTraffic PF now resp w = Done tt w' ->
  cfg (sup w') = cfg (sup w) /\ launches (out w') = launches (out w).
Proof.
  destruct (state (sup w)) as [st|] eqn:Est.
  - destruct (Z_lt_le_dec (PeriodStartTime st + periodDuration (cfg (sup w))) now)
      as [Hlt | Hle].
    + rewrite (checkTraffic_expired PF now resp w st Est Hlt).
      intros H. injection H as <-. simpl. rewrite launches_app. simpl.
      rewrite app_nil_r. split; reflexivity.
    + rewrite (checkTraffic_running PF now resp w st Est Hle).
      destruct (scrapeBytesUsed PF resp) as [total|].
      * rewrite (updateUsage_spec w st total Est). cbv zeta.
        intros H. injection H as <-. simpl. rewrite !launches_app.
        destruct (0 <? _); destruct (crosses _ _ _); simpl;
          rewrite app_nil_r; split; reflexivity.
      * intros H. injection H as <-. split; reflexivity.
  - unfold checkTraffic, bind, getSup, getState. rewrite Est. discriminate.
Qed.

Lemma step_launches (PF : string -> option float) (ev : Event) (ph ph' : Phase)
    (w w' : World) :
  step PF ev ph w = Some (Done ph' w') ->
  cfg (sup w') = cfg (sup w) /\
  exists l,
    launches (out w') = launches (out w) ++ l /\
    Forall (launchOf PF (cfg (sup w))) l.
Proof.
  intros Hstep.
  assert (Htick : forall now resp (k : Phase),
            (checkTraffic PF now resp ;;; ret k) w = Done ph' w' ->
            cfg (sup w') = cfg (sup w) /\
            exists l, launches (out w') = launches (out w) ++ l
                      /\ Forall (launchOf PF (cfg (sup w))) l).
  { intros now resp k H. unfold bind, ret in H.
    destruct (checkTraffic PF now resp w) as [[] w1|] eqn:Hrun; [|discriminate].
    injection H as _ <-. destruct (tick_no_launch PF now resp w w1 Hrun) as [Hc Hl].
    split; [exact Hc|]. exists []. rewrite app_nil_r. split; [exact Hl|constructor]. }
  assert (Hshut : forall env (pre : list Effect) s (k : Phase),
            launches pre = [] -> cfg s = cfg (sup w) ->
            (shutdownChild env ;;; ret k) (mkWorld s (out w ++ pre)) = Done ph' w' ->
            cfg (sup w') = cfg (sup w) /\
            exists l, launches (out w') = launches (out w) ++ l
                      /\ Forall (launchOf PF (cfg (sup w))) l).
  { intros env pre s k Hpre Hcfg H.
    destruct (shutdownChild_frame env (mkWorld s (out w ++ pre))) as (tr & Hrun & _ & Hl).
    unfold bind, ret in H. rewrite Hrun in H. injection H as _ <-. simpl.
    split; [exact Hcfg|]. exists []. rewrite !launches_app, Hpre, Hl, !app_nil_r.
    split; [reflexivity|constructor]. }
  destruct ph as [| |err]; [| |discriminate].
  - destruct ev as [now resp|pending startOk|status|env|env|env]; try discriminate.
    + simpl in Hstep. injection Hstep as Hstep. exact (Htick now resp AtLoopTop Hstep).
    + rewrite step_iterate in Hstep. injection Hstep as Hstep.
      destruct pending as [[|]|].
      * unfold loopTop, ret in Hstep. injection Hstep as _ <-.
        split; [reflexivity|]. exists []. rewrite app_nil_r. split; [reflexivity|constructor].
      * unfold loopTop in Hstep. run_monad. simpl in Hstep. injection Hstep as _ <-.
        simpl. split; [reflexivity|]. exists []. rewrite launches_app, app_nil_r. simpl.
        rewrite app_nil_r. split; [reflexivity|constructor].
      * destruct (state (sup w)) as [st|] eqn:Est.
        -- rewrite (loopTop_launch PF startOk w st Est) in Hstep. cbv zeta in Hstep.
           injection Hstep as _ <-. simpl. split; [reflexivity|].
           exists [launchArgs PF (cfg (sup w)) (IsThrottled st)].
           rewrite launches_app. split; [destruct startOk; reflexivity|].
           constructor; [|constructor].
           unfold launchOf. destruct (IsThrottled st); [right|left]; reflexivity.
        -- unfold loopTop, bind, getState in Hstep. rewrite Est in Hstep.
           discriminate Hstep.
  - destruct ev as [now resp|pending startOk|status|env|env|env]; try discriminate.
    + simpl in Hstep. injection Hstep as Hstep. exact (Htick now resp Waiting Hstep).
    + rewrite step_child_exited in Hstep. injection Hstep as Hstep.
      unfold onChildExit in Hstep.
      destruct (negb (status =? 0)); run_monad; simpl in Hstep;
        injection Hstep as _ <-; simpl; (split; [reflexivity|]);
        exists []; rewrite !launches_app, !app_nil_r; simpl; rewrite ?app_nil_r;
        (split; [reflexivity|constructor]).
    + simpl in Hstep. destruct (recv (restartChan (sup w))) as [c'|]; [|discriminate].
      injection Hstep as Hstep. unfold onRestart in Hstep.
      apply (Hshut env [Log "[INFO] Restarting Conduit to apply new settings..."]
                   {| cfg := cfg (sup w); state := state (sup w); child := child (sup w);
                      restartChan := c'; lastScrapeTotal := lastScrapeTotal (sup w) |}
                   AtLoopTop); [reflexivity|reflexivity|exact Hstep].
    + simpl in Hstep. injection Hstep as Hstep. unfold onSignal in Hstep.
      destruct w as [s o].
      apply (Hshut env [Log "[INFO] Received signal, shutting down..."] s (Returned None));
        [reflexivity|reflexivity|exact Hstep].
    + simpl in Hstep. injection Hstep as Hstep. unfold onStop in Hstep.
      destruct w as [s o].
      apply (Hshut env [] s (Returned None)); [reflexivity|reflexivity|].
      simpl. rewrite app_nil_r. exact Hstep.
Qed.

Lemma run_launches (PF : string -> option float) (c : Config) (evs : list Event)
    (ph ph' : Phase) (w w' : World) :
  cfg (sup w) = c ->
  Forall (launchOf PF c) (launches (out w)) ->
  run PF evs ph w = Some (Done ph' w') ->
  cfg (sup w') = c /\ Forall (launchOf PF c) (launches (out w')).
Proof.
  revert ph w. induction evs as [|ev evs IH]; intros ph w Hcfg Hall Hrun.
  - simpl in Hrun. injection Hrun as _ <-. split; assumption.
  - simpl in Hrun.
    destruct (step PF ev ph w) as [[ph1 w1|]|] eqn:Hstep; try discriminate.
    destruct (step_launches PF ev ph ph1 w w1 Hstep) as (Hc & l & Hl & Hf).
    apply (IH ph1 w1); [congruence| |exact Hrun].
    rewrite Hl. apply Forall_app. split; [exact Hall|]. rewrite Hcfg in Hf. exact Hf.
Qed.

(** X20: Conduit is only ever launched in one of two ways: in every run of
    the supervisor the configuration stays the one it was created with,
    and each launch uses either the operator's arguments or the throttled
    arguments computed from them. *)
Theorem launches_one_of_two (PF : string -> option float) (c : Config)
    (loaded : LoadResult) (now : Time) (evs : list Event) (ph : Phase) (w0 w : World) :
  boot c loaded now = Done tt w0 ->
  run PF evs AtLoopTop w0 = Some (Done ph w) ->
  cfg (sup w) = c /\
  Forall (fun args => args = ConduitArgs c \/ args = launchArgs PF c true)
         (launches (out w)).
Proof.
  intros Hboot Hrun.
  apply (run_launches PF c evs AtLoopTop ph w0 w); [| |exact Hrun].
  - unfold boot in Hboot. destruct loaded; simpl in Hboot; injection Hboot as <-;
      reflexivity.
  - unfold boot in Hboot. destruct loaded; simpl in Hboot; injection Hboot as <-;
      constructor.
Qed.

Lemma launches_one_of_two_witness :
  Forall (fun args => args = ConduitArgs sampleConfig
                      \/ args = launchArgs parseDecimal sampleConfig true)
    (launches
       [Log "[INFO] No previous state found, starting fresh traffic period";
        SaveState (Some (mkTrafficState 0 0 false));
        Log "[INFO] Starting Conduit in NORMAL mode";
        StartChild (ConduitArgs sampleConfig); SpawnWaiter]).
Proof.
  refine (proj2 (launches_one_of_two parseDecimal sampleConfig NotExist 0
                   [Iterate None true] Waiting
                   (mkWorld
                      {| cfg := sampleConfig; state := Some (mkTrafficState 0 0 false);
                         child := None; restartChan := makeChan 1; lastScrapeTotal := 0 |}
                      [Log "[INFO] No previous state found, starting fresh traffic period";
                       SaveState (Some (mkTrafficState 0 0 false))])
                   (mkWorld
                      {| cfg := sampleConfig; state := Some (mkTrafficState 0 0 false);
                         child := Some (mkCmd (ConduitArgs sampleConfig) true);
                         restartChan := makeChan 1; lastScrapeTotal := 0 |}
                      [Log "[INFO] No previous state found, starting fresh traffic period";
                       SaveState (Some (mkTrafficState 0 0 false));
                       Log "[INFO] Starting Conduit in NORMAL mode";
                       StartChild (ConduitArgs sampleConfig); SpawnWaiter])
                   _ _)).
  - reflexivity.
  - reflexivity.
Defined.
